(** * Client-side behaviour of the portfolio / blog page (src/js/main.js)

    The script declares its classes several times over, as successive
    drafts.  Three parts of it are embedded here:

    - [UI]      the header opacity computed by [UIController.calculateOpacity];
    - [Full]    the first [BlogPostManager] (private [#state], category filter,
                search, date sort, placeholder for an empty listing);
    - [Simple]  the last [BlogPostManager] (the "simple" version: listing,
                search with a no-results panel, detail modal with comments).
    - [ContactForm], [ContactFormSimple]  the first and the last contact
                form (validation of required controls, submission, status
                message), over the page model of [Form];
    - [MobileMenu]  the hamburger listener.

    JavaScript values are modelled as follows.  Numbers that only ever hold
    integers (post ids, timestamps) are [Z]; the opacity is a binary64
    float.  Strings are [string] (the UTF-8 bytes of the text).  Arrays of
    posts live in a heap of references, so that in-place operations such as
    [Array.prototype.sort] and aliasing of [this.posts] are visible.  Code
    that can throw runs in a state-and-exception monad over the page
    ([World]): the manager object, the heap, the parts of the document the
    script touches, the console and the list of requests issued. *)

From Stdlib Require Import ZArith List String Ascii Bool Lia Floats
  DecimalString Permutation Sorted.
From stdpp Require Import base gmap strings.
Import ListNotations.

(** ** Built-ins of the language *)

Module Js.

(** *** Math.max and Math.min on two binary64 arguments *)

Section MathMinMax.
Local Open Scope float_scope.

Definition Math_max (a b : float) : float :=
  if is_nan a || is_nan b then nan
  else if a <? b then b
  else if b <? a then a
  else if get_sign a then b else a.

Definition Math_min (a b : float) : float :=
  if is_nan a || is_nan b then nan
  else if a <? b then a
  else if b <? a then b
  else if get_sign a then a else b.

End MathMinMax.

(** *** Strings *)

Local Open Scope string_scope.

(** The double quote and the line feed, which occur in the HTML templates. *)
Definition q : string := String (ascii_of_nat 34) EmptyString.
Definition nl : string := String (ascii_of_nat 10) EmptyString.

(** [s.includes(t)]: [t] occurs in [s] at some position. *)
Fixpoint includes (s t : string) : bool :=
  String.prefix t s ||
  match s with
  | EmptyString => false
  | String _ s' => includes s' t
  end.

(** [`${n}`] for an integral number. *)
Definition Number_toString (n : Z) : string :=
  NilZero.string_of_int (Z.to_int n).

(** A string in a boolean position: only the empty string is falsy. *)
Definition truthy (s : string) : bool :=
  match s with EmptyString => false | _ => true end.

(** [a || b] on strings. *)
Definition or_else (a b : string) : string := if truthy a then a else b.

(** *** Arrays (their contents; references are handled by the monad) *)

Section Arrays.
Context {A : Type}.

(** [Array.prototype.filter]: visit the indices in ascending order and
    append the elements that satisfy the callback to a new array. *)
Definition Array_filter (callback : A -> bool) (a : list A) : list A :=
  fold_left (fun kept x => if callback x then (kept ++ [x])%list else kept) a [].

(** [Array.prototype.find]: the first element satisfying the callback,
    [None] standing for [undefined]. *)
Fixpoint Array_find (callback : A -> bool) (a : list A) : option A :=
  match a with
  | [] => None
  | x :: a' => if callback x then Some x else Array_find callback a'
  end.

(** [Array.prototype.sort] with a comparator.  The language requires the
    sort to be stable and, for a consistent comparator, to order the
    elements by it, which leaves one possible result
    ([Array_sort_determined] below); a stable insertion sort computes it.
    [x] is placed in front of the first element it does not follow
    ([comparefn x y <= 0]), so it never overtakes an element it compares
    equal to. *)
Fixpoint sort_insert (comparefn : A -> A -> Z) (x : A) (sorted : list A) : list A :=
  match sorted with
  | [] => [x]
  | y :: rest =>
      if (comparefn x y <=? 0)%Z then x :: y :: rest
      else y :: sort_insert comparefn x rest
  end.

Fixpoint Array_sort (comparefn : A -> A -> Z) (a : list A) : list A :=
  match a with
  | [] => []
  | x :: a' => sort_insert comparefn x (Array_sort comparefn a')
  end.

End Arrays.

(** [Array.prototype.join] with the empty separator, on an array of
    strings. *)
Definition Array_join (a : list string) : string := String.concat EmptyString a.

(** *** Errors and completion records *)

Inductive JsError : Type :=
  | Error (message : string)
  | TypeError (message : string)
  | SyntaxError (message : string).

Inductive Result (A : Type) : Type :=
  | Ok (a : A)
  | Throw (e : JsError).
Arguments Ok {A} a.
Arguments Throw {A} e.

(** *** Sets of strings

    A [Set] keeps its elements in insertion order and holds each once;
    [new Set(iterable)] adds the elements one after the other. *)

Definition Set_has (s : list string) (x : string) : bool :=
  existsb (String.eqb x) s.

Definition Set_add (s : list string) (x : string) : list string :=
  if Set_has s x then s else (s ++ [x])%list.

Definition Set_from (iterable : list string) : list string :=
  fold_left Set_add iterable [].

(** *** Token lists ([classList])

    [toggle(token)] removes the token when present and appends it
    otherwise. *)

Definition classList_contains (classes : list string) (token : string) : bool :=
  existsb (String.eqb token) classes.

Definition classList_remove (classes : list string) (token : string) : list string :=
  List.filter (fun c => negb (String.eqb token c)) classes.

Definition classList_toggle (classes : list string) (token : string) : list string :=
  if classList_contains classes token then classList_remove classes token
  else (classes ++ [token])%list.

End Js.

(** ** The host: what the engine and its locale supply

    [toLowerCase] is the engine's case mapping, [Date_getTime] the number
    of milliseconds a date string denotes ([new Date(s)] in a numeric
    position; the data model restricts [date] to parseable strings, so
    the value is an integer), [toLocaleDateString] the ["ja-JP"]
    rendering of a date string, and [now_toISOString] the value of
    [new Date().toISOString()] when the page runs. *)

Class Host : Type := {
  toLowerCase : string -> string;
  Date_getTime : string -> Z;
  toLocaleDateString : string -> string;
  now_toISOString : string;
  toLowerCase_empty : toLowerCase EmptyString = EmptyString
}.

(** ** Data model *)

Module Post.
Record t : Type := mk {
  id : Z;
  title : string;
  body : string;
  date : string;
  author : string;
  category : string
}.
End Post.

Module Comment.
Record t : Type := mk {
  name : string;
  body : string;
  email : string
}.
End Comment.

(** A reference to an array of posts. *)
Definition ref : Type := nat.

(** An element created by the script: its tag, class and inner HTML. *)
Record Element : Type := {
  tagName : string;
  className : string;
  innerHTML : string
}.

(** The parts of the document the blog code reads or writes.
    [blog_posts] is the inner HTML of the [.blog-posts] container, [None]
    when the page has no such element; [blog_section] lists the children
    the script put in front of [#blog] (first child first), [None] when
    the page has no such element; [body_children] lists what was appended
    to [document.body]. *)
Record Document : Type := {
  blog_posts : option string;
  blog_section : option (list Element);
  body_children : list Element
}.

(** The outcome of [fetch(url)] followed by [response.json()], as the
    network decides it.  A body that parses has the shape the interface
    fixes for the endpoint. *)
Inductive Body (D : Type) : Type :=
  | JsonRejected (e : Js.JsError)
  | JsonValue (data : D).
Arguments JsonRejected {D} e.
Arguments JsonValue {D} data.

Inductive FetchOutcome (D : Type) : Type :=
  | FetchRejected (e : Js.JsError)
  | Response (ok : bool) (body : Body D).
Arguments FetchRejected {D} e.
Arguments Response {D} ok body.

(** The fetch fails: the request is rejected (network error), the
    response is not a success, or its body does not parse. *)
Definition fetch_fails {D} (outcome : FetchOutcome D) : bool :=
  match outcome with
  | FetchRejected _ => true
  | Response ok body =>
      negb ok || match body with JsonRejected _ => true | JsonValue _ => false end
  end.

(** [t] occurs in [s]. *)
Definition substring_of (t s : string) : Prop :=
  exists before after, s = before +:+ t +:+ after.

(** [{ "posts": [...] }] *)
Record PostsDocument : Type := { doc_posts : list Post.t }.

(** What a manager stores after the fetch: the posts of the document
    when the response is a success whose body parses, and otherwise the
    one post it substitutes. *)
Definition loaded (fallback : Post.t) (outcome : FetchOutcome PostsDocument) : list Post.t :=
  match outcome with
  | Response true (JsonValue data) => doc_posts data
  | _ => [fallback]
  end.

(** ** The page as a state, and the monad of code running on it *)

Record World (S : Type) : Type := mkWorld {
  this : S;
  heap : gmap ref (list Post.t);
  document : Document;
  console : list (string * Js.JsError);
  requests : list string
}.
Arguments mkWorld {S}.
Arguments this {S}.
Arguments heap {S}.
Arguments document {S}.
Arguments console {S}.
Arguments requests {S}.

Definition M (S A : Type) : Type := World S -> Js.Result A * World S.

Section Monad.
Context {S : Type}.

Definition ret {A} (a : A) : M S A := fun w => (Js.Ok a, w).

Definition bind {A B} (m : M S A) (k : A -> M S B) : M S B :=
  fun w =>
    match m w with
    | (Js.Ok a, w') => k a w'
    | (Js.Throw e, w') => (Js.Throw e, w')
    end.

Definition throw {A} (e : Js.JsError) : M S A := fun w => (Js.Throw e, w).

(** [try { m } catch (error) { handler(error) }] *)
Definition try_catch {A} (m : M S A) (handler : Js.JsError -> M S A) : M S A :=
  fun w =>
    match m w with
    | (Js.Ok a, w') => (Js.Ok a, w')
    | (Js.Throw e, w') => handler e w'
    end.

Definition get_this : M S S := fun w => (Js.Ok (this w), w).

Definition set_this (s : S) : M S unit :=
  fun w => (Js.Ok tt, mkWorld s (heap w) (document w) (console w) (requests w)).

Definition get_document : M S Document := fun w => (Js.Ok (document w), w).

Definition set_document (d : Document) : M S unit :=
  fun w => (Js.Ok tt, mkWorld (this w) (heap w) d (console w) (requests w)).

(** [console.error(label, error)] *)
Definition console_error (label : string) (e : Js.JsError) : M S unit :=
  fun w => (Js.Ok tt,
            mkWorld (this w) (heap w) (document w) (console w ++ [(label, e)])%list (requests w)).

(** A new array with the given contents. *)
Definition alloc (a : list Post.t) : M S ref :=
  fun w =>
    let r := fresh (dom (heap w)) in
    (Js.Ok r, mkWorld (this w) (<[r := a]> (heap w)) (document w) (console w) (requests w)).

(** The contents of an array. *)
Definition read (r : ref) : M S (list Post.t) :=
  fun w => (Js.Ok (heap w !!! r), w).

(** Overwrite the contents of an existing array. *)
Definition write (r : ref) (a : list Post.t) : M S unit :=
  fun w => (Js.Ok tt, mkWorld (this w) (<[r := a]> (heap w)) (document w) (console w) (requests w)).

(** [await fetch(url)]: the request is issued, then the promise settles
    the way [outcome] says. *)
Definition fetch {D} (url : string) (outcome : FetchOutcome D) : M S (bool * Body D) :=
  fun w =>
    let w' := mkWorld (this w) (heap w) (document w) (console w) (requests w ++ [url])%list in
    match outcome with
    | FetchRejected e => (Js.Throw e, w')
    | Response ok body => (Js.Ok (ok, body), w')
    end.

(** [await response.json()] *)
Definition response_json {D} (body : Body D) : M S D :=
  match body with
  | JsonRejected e => throw e
  | JsonValue data => ret data
  end.

(** [a.filter(callback)]: a new array. *)
Definition Array_filter (callback : Post.t -> bool) (r : ref) : M S ref :=
  bind (read r) (fun a => alloc (Js.Array_filter callback a)).

(** [[...a]]: a new array with the same elements. *)
Definition Array_spread (r : ref) : M S ref :=
  bind (read r) (fun a => alloc a).

(** [a.sort(comparefn)]: sorts [a] in place and returns [a] itself. *)
Definition Array_sort (comparefn : Post.t -> Post.t -> Z) (r : ref) : M S ref :=
  bind (read r) (fun a =>
  bind (write r (Js.Array_sort comparefn a)) (fun _ =>
  ret r)).

End Monad.

Notation "'do' x <- m ; k" := (bind m (fun x => k))
  (at level 10, x name, m at level 100, k at level 200).

(** Running a computation for its final state. *)
Definition exec {S A} (m : M S A) (w : World S) : World S := snd (m w).
Definition outcome_of {S A} (m : M S A) (w : World S) : Js.Result A := fst (m w).

(** Unfolding the monad, to run code symbolically. *)
Ltac run_monad :=
  unfold exec, outcome_of, Array_filter, Array_spread, Array_sort, response_json,
    fetch, try_catch, bind, throw, ret, get_this, set_this, get_document,
    set_document, console_error, alloc, read, write;
  simpl.

(** ** Header opacity ([UIController]) *)

Module UI.
Local Open Scope float_scope.

Record ScrollConfig : Type := {
  threshold : float;
  headerOpacityMax : float;
  headerOpacityMin : float;
  buttonShowThreshold : float
}.

(** [CONFIG.scroll]; the decimal literals denote the nearest binary64
    values, as they do in the script. *)
#[warnings="-inexact-float"]
Definition CONFIG_scroll : ScrollConfig := {|
  threshold := 100;
  headerOpacityMax := 0.9;
  headerOpacityMin := 0.6;
  buttonShowThreshold := 100
|}.

(** [this.#scrollThreshold], set by the constructor. *)
Definition scrollThreshold : float := threshold CONFIG_scroll.

Definition calculateOpacity (scrollTop : float) : float :=
  Js.Math_min
    (headerOpacityMax CONFIG_scroll)
    (Js.Math_max
       (headerOpacityMin CONFIG_scroll)
       (1 - scrollTop / scrollThreshold)).

End UI.

(** ** The first [BlogPostManager] *)

Module Full.

Record BlogConfig : Type := {
  defaultSortOrder : string;
  defaultFilter : string;
  postsPerPage : Z
}.

Definition CONFIG_blog : BlogConfig := {|
  defaultSortOrder := "newest";
  defaultFilter := "all";
  postsPerPage := 10
|}.

(** [#state]; [categories] is the insertion-ordered content of the [Set]. *)
Record State : Type := {
  posts : ref;
  categories : list string;
  currentFilter : string;
  sortOrder : string
}.

Definition set_posts (r : ref) : M State unit :=
  do s <- get_this ;
  set_this {| posts := r; categories := categories s;
              currentFilter := currentFilter s; sortOrder := sortOrder s |}.

Definition set_currentFilter (v : string) : M State unit :=
  do s <- get_this ;
  set_this {| posts := posts s; categories := categories s;
              currentFilter := v; sortOrder := sortOrder s |}.

Definition set_sortOrder (v : string) : M State unit :=
  do s <- get_this ;
  set_this {| posts := posts s; categories := categories s;
              currentFilter := currentFilter s; sortOrder := v |}.

(** [container.innerHTML = html] *)
Definition set_blog_posts (d : Document) (html : string) : Document :=
  {| blog_posts := Some html; blog_section := blog_section d;
     body_children := body_children d |}.

Section WithHost.
Context {host : Host}.

(** The post substituted when the data cannot be loaded. *)
Definition fallback_post : Post.t := {|
  Post.id := 1;
  Post.title := "エラーが発生しました";
  Post.body := "データの読み込みに失敗しました。";
  Post.date := now_toISOString;
  Post.author := "システム";
  Post.category := "エラー"
|}.

Definition fetchPosts (outcome : FetchOutcome PostsDocument) : M State unit :=
  try_catch
    (do response <- fetch "/data/posts.json" outcome ;
     if negb (fst response) then throw (Js.Error "データの取得に失敗しました")
     else
       do data <- response_json (snd response) ;
       do r <- alloc (doc_posts data) ;
       set_posts r)
    (fun error =>
       do _ <- console_error "データ取得エラー:" error ;
       do r <- alloc [fallback_post] ;
       set_posts r).

(** [utils.formatDate] *)
Definition formatDate (date : string) : string := toLocaleDateString date.

(** The template of one post in the listing. *)
Definition article (post : Post.t) : string :=
  Js.nl +:+
  "      <article class=" +:+ Js.q +:+ "blog-post" +:+ Js.q +:+ " data-post-id=" +:+ Js.q +:+ Js.Number_toString (Post.id post) +:+ Js.q +:+ ">" +:+ Js.nl +:+
  "        <h3>" +:+ Post.title post +:+ "</h3>" +:+ Js.nl +:+
  "        <div class=" +:+ Js.q +:+ "post-meta-header" +:+ Js.q +:+ ">" +:+ Js.nl +:+
  "          <span class=" +:+ Js.q +:+ "category" +:+ Js.q +:+ ">" +:+ Post.category post +:+ "</span>" +:+ Js.nl +:+
  "          <span class=" +:+ Js.q +:+ "author" +:+ Js.q +:+ ">投稿者: " +:+ Post.author post +:+ "</span>" +:+ Js.nl +:+
  "        </div>" +:+ Js.nl +:+
  "        <p>" +:+ Post.body post +:+ "</p>" +:+ Js.nl +:+
  "        <div class=" +:+ Js.q +:+ "post-meta" +:+ Js.q +:+ ">" +:+ Js.nl +:+
  "          <time datetime=" +:+ Js.q +:+ Post.date post +:+ Js.q +:+ ">" +:+ formatDate (Post.date post) +:+ "</time>" +:+ Js.nl +:+
  "          <button class=" +:+ Js.q +:+ "read-more-btn" +:+ Js.q +:+ " data-post-id=" +:+ Js.q +:+ Js.Number_toString (Post.id post) +:+ Js.q +:+ ">続きを読む</button>" +:+ Js.nl +:+
  "        </div>" +:+ Js.nl +:+
  "      </article>" +:+ Js.nl +:+
  "    ".

Definition placeholder : string := "<p>投稿がありません。</p>".

(** What [renderPosts] assigns to the container for the given posts. *)
Definition listing (a : list Post.t) : string :=
  let postsHTML := Js.Array_join (map article a) in
  Js.or_else postsHTML placeholder.

Definition renderPosts (posts : ref) : M State unit :=
  do d <- get_document ;
  match blog_posts d with
  | None => ret tt
  | Some _ =>
      do a <- read posts ;
      set_document (set_blog_posts d (listing a))
  end.

Definition filterByCategory (category : string) : M State unit :=
  do _ <- set_currentFilter category ;
  do s <- get_this ;
  do filteredPosts <-
    (if String.eqb category "all" then ret (posts s)
     else Array_filter (fun post => String.eqb (Post.category post) category) (posts s)) ;
  renderPosts filteredPosts.

(** The callback of the search filter. *)
Definition matches (term : string) (post : Post.t) : bool :=
  Js.includes (toLowerCase (Post.title post)) term ||
  Js.includes (toLowerCase (Post.body post)) term.

(** The [input] listener of the search box; [value] is [e.target.value]. *)
Definition searchInput_oninput (value : string) : M State unit :=
  let term := toLowerCase value in
  do s <- get_this ;
  do filtered <- Array_filter (matches term) (posts s) ;
  renderPosts filtered.

(** The comparator of [sortPosts]: the difference of the two timestamps
    (its sign is all the sort looks at). *)
Definition compareFn (sortOrder : string) (a b : Post.t) : Z :=
  let dateA := Date_getTime (Post.date a) in
  let dateB := Date_getTime (Post.date b) in
  if String.eqb sortOrder "newest" then (dateB - dateA)%Z else (dateA - dateB)%Z.

Definition sortPosts : M State unit :=
  do s <- get_this ;
  do copy <- Array_spread (posts s) ;
  do sorted <- Array_sort (compareFn (sortOrder s)) copy ;
  renderPosts sorted.

(** The [change] listener of the sort select. *)
Definition sortSelect_onchange (value : string) : M State unit :=
  do _ <- set_sortOrder value ;
  sortPosts.

(** The [change] listener of the category select. *)
Definition categorySelect_onchange (value : string) : M State unit :=
  filterByCategory value.

(** The user's actions on the three controls. *)
Inductive Event : Type :=
  | CategoryChange (value : string)
  | SearchInput (value : string)
  | SortChange (value : string).

Definition handle (e : Event) : M State unit :=
  match e with
  | CategoryChange value => categorySelect_onchange value
  | SearchInput value => searchInput_oninput value
  | SortChange value => sortSelect_onchange value
  end.

(** The page after a sequence of actions.  A listener runs to completion
    before the next event is dispatched. *)
Definition run (events : list Event) (w : World State) : World State :=
  fold_left (fun w e => exec (handle e) w) events w.

(** What one listener computes from the stored collection [a], on its
    own: the category filter, the search filter, or the date sort. *)
Definition step_alone (e : Event) (a : list Post.t) : list Post.t :=
  match e with
  | CategoryChange value =>
      if String.eqb value "all" then a
      else List.filter (fun post => String.eqb (Post.category post) value) a
  | SearchInput value => List.filter (matches (toLowerCase value)) a
  | SortChange value => Js.Array_sort (compareFn value) a
  end.

(** *** Start-up of the first manager *)

Definition set_categories (c : list string) : M State unit :=
  do s <- get_this ;
  set_this {| posts := posts s; categories := c;
              currentFilter := currentFilter s; sortOrder := sortOrder s |}.

(** The options of the category select. *)
Definition category_options (categories : list string) : string :=
  Js.nl +:+
  "      <option value=" +:+ Js.q +:+ "all" +:+ Js.q +:+ ">すべて表示</option>" +:+ Js.nl +:+
  "      " +:+
  Js.Array_join
    (map (fun category =>
            Js.nl +:+
            "          <option value=" +:+ Js.q +:+ category +:+ Js.q +:+ ">" +:+ category +:+ "</option>" +:+ Js.nl +:+
            "        ")
         categories) +:+ Js.nl +:+
  "    ".

(** [setupCategoryFilter] builds the select and puts it in a new [div];
    the [div] is not inserted anywhere (the insertion is absent in this
    draft and commented out in the next), so nothing on the page or in
    the state changes. *)
Definition setupCategoryFilter : M State unit :=
  do s <- get_this ;
  let select :=
    {| tagName := "select"; className := "category-select";
       innerHTML := category_options (categories s) |} in
  ret tt.

Definition initializeCategories : M State unit :=
  do s <- get_this ;
  do a <- read (posts s) ;
  do _ <- set_categories (Js.Set_from (map Post.category a)) ;
  setupCategoryFilter.

(** [blogSection.insertBefore(element, blogSection.firstChild)], guarded
    by [if (blogSection)]. *)
Definition insert_first (e : Element) : M State unit :=
  do d <- get_document ;
  match blog_section d with
  | None => ret tt
  | Some children =>
      set_document {| blog_posts := blog_posts d;
                      blog_section := Some (e :: children);
                      body_children := body_children d |}
  end.

(** The search input.  [Element] has no place for the [type] and
    [placeholder] the script also sets on it. *)
Definition search_input : Element :=
  {| tagName := "input"; className := "search-input"; innerHTML := EmptyString |}.

Definition setupSearchFeature : M State unit := insert_first search_input.

Definition sort_options : string :=
  Js.nl +:+
  "      <option value=" +:+ Js.q +:+ "newest" +:+ Js.q +:+ ">新しい順</option>" +:+ Js.nl +:+
  "      <option value=" +:+ Js.q +:+ "oldest" +:+ Js.q +:+ ">古い順</option>" +:+ Js.nl +:+
  "    ".

Definition sort_select : Element :=
  {| tagName := "select"; className := "sort-select"; innerHTML := sort_options |}.

Definition setupSortingFeature : M State unit := insert_first sort_select.

Definition setupUI : M State unit :=
  do _ <- setupSearchFeature ;
  do _ <- setupSortingFeature ;
  setupCategoryFilter.

(** [renderPosts()] with its default argument [this.#state.posts]. *)
Definition renderPosts_default : M State unit :=
  do s <- get_this ;
  renderPosts (posts s).

(** [utils.handleError(error)] *)
Definition utils_handleError (error : Js.JsError) : M State unit :=
  console_error "エラーが発生しました:" error.

Definition init (outcome : FetchOutcome PostsDocument) : M State unit :=
  try_catch
    (do _ <- fetchPosts outcome ;
     do _ <- initializeCategories ;
     do _ <- setupUI ;
     renderPosts_default)
    utils_handleError.

End WithHost.
End Full.

(** ** The last [BlogPostManager] (the simple version) *)

Module Simple.

Record State : Type := {
  posts : ref;
  currentPost : option Post.t
}.

Definition set_posts (r : ref) : M State unit :=
  do s <- get_this ;
  set_this {| posts := r; currentPost := currentPost s |}.

(** [blogContainer.innerHTML = html] *)
Definition set_blog_posts (d : Document) (html : string) : Document :=
  {| blog_posts := Some html; blog_section := blog_section d;
     body_children := body_children d |}.

(** [this.document]: the class gives the manager the properties [posts]
    and [currentPost] and its methods; it neither declares nor inherits a
    property named [document], so the lookup yields [undefined] ([None]). *)
Definition this_document (s : State) : option Document := None.

Section WithHost.
Context {host : Host}.

Definition fallback_post : Post.t := {|
  Post.id := 1;
  Post.title := "エラーが発生しました";
  Post.body := "申し訳ありません。データの読み込みに失敗しました。";
  Post.date := now_toISOString;
  Post.author := "システム";
  Post.category := "エラー"
|}.

Definition fetchPosts (outcome : FetchOutcome PostsDocument) : M State unit :=
  try_catch
    (do response <- fetch "/data/posts.json" outcome ;
     if negb (fst response) then throw (Js.Error "データの取得に失敗しました")
     else
       do data <- response_json (snd response) ;
       do r <- alloc (doc_posts data) ;
       set_posts r)
    (fun error =>
       do _ <- console_error "データ取得エラー:" error ;
       do r <- alloc [fallback_post] ;
       set_posts r).

Definition article (post : Post.t) : string :=
  Js.nl +:+
  "      <article class=" +:+ Js.q +:+ "blog-post" +:+ Js.q +:+ " data-post-id=" +:+ Js.q +:+ Js.Number_toString (Post.id post) +:+ Js.q +:+ ">" +:+ Js.nl +:+
  "        <h3>" +:+ Post.title post +:+ "</h3>" +:+ Js.nl +:+
  "        <div class=" +:+ Js.q +:+ "post-meta-header" +:+ Js.q +:+ ">" +:+ Js.nl +:+
  "          <span class=" +:+ Js.q +:+ "category" +:+ Js.q +:+ ">" +:+ Post.category post +:+ "</span>" +:+ Js.nl +:+
  "          <span class=" +:+ Js.q +:+ "author" +:+ Js.q +:+ ">投稿者: " +:+ Post.author post +:+ "</span>" +:+ Js.nl +:+
  "        </div>" +:+ Js.nl +:+
  "        <p>" +:+ Post.body post +:+ "</p>" +:+ Js.nl +:+
  "        <div class=" +:+ Js.q +:+ "post-meta" +:+ Js.q +:+ ">" +:+ Js.nl +:+
  "          <time datetime=" +:+ Js.q +:+ Post.date post +:+ Js.q +:+ ">" +:+ toLocaleDateString (Post.date post) +:+ "</time>" +:+ Js.nl +:+
  "          <button class=" +:+ Js.q +:+ "read-more-btn" +:+ Js.q +:+ " data-post-id=" +:+ Js.q +:+ Js.Number_toString (Post.id post) +:+ Js.q +:+ ">続きを読む</button>" +:+ Js.nl +:+
  "        </div>" +:+ Js.nl +:+
  "      </article>" +:+ Js.nl +:+
  "    ".

(** What [renderPosts] assigns to the container for the given posts. *)
Definition listing (a : list Post.t) : string :=
  Js.Array_join (map article a).

Definition renderPosts (posts : ref) : M State unit :=
  do d <- get_document ;
  match blog_posts d with
  | None => ret tt
  | Some _ =>
      do a <- read posts ;
      set_document (set_blog_posts d (listing a))
  end.

Definition error_message : string :=
  Js.nl +:+
  "      <div class=" +:+ Js.q +:+ "error-message" +:+ Js.q +:+ ">" +:+ Js.nl +:+
  "        <p>データの読み込みに失敗しました。</p>" +:+ Js.nl +:+
  "        <button onclick=" +:+ Js.q +:+ "location.reload()" +:+ Js.q +:+ ">再読み込み</button>" +:+ Js.nl +:+
  "      </div>" +:+ Js.nl +:+
  "    ".

Definition handleError (error : Js.JsError) : M State unit :=
  do d <- get_document ;
  match blog_posts d with
  | None => ret tt
  | Some _ => set_document (set_blog_posts d error_message)
  end.

Definition no_results : string :=
  Js.nl +:+
  "        <div class=" +:+ Js.q +:+ "no-results" +:+ Js.q +:+ ">" +:+ Js.nl +:+
  "          <p>検索結果が見つかりませんでした。</p>" +:+ Js.nl +:+
  "        </div>" +:+ Js.nl +:+
  "      ".

Definition renderFilteredPosts (filteredPosts : ref) : M State unit :=
  do d <- get_document ;
  match blog_posts d with
  | None => ret tt
  | Some _ =>
      do a <- read filteredPosts ;
      if (length a =? 0)%nat then set_document (set_blog_posts d no_results)
      else renderPosts filteredPosts
  end.

(** The callback of the search filter. *)
Definition matches (searchTerm : string) (post : Post.t) : bool :=
  Js.includes (toLowerCase (Post.title post)) searchTerm ||
  Js.includes (toLowerCase (Post.body post)) searchTerm.

Definition filterAndRenderPosts (searchTerm : string) : M State unit :=
  do s <- get_this ;
  do filteredPosts <- Array_filter (matches searchTerm) (posts s) ;
  renderFilteredPosts filteredPosts.

(** The [input] listener of the search box; [value] is [e.target.value]. *)
Definition searchInput_oninput (value : string) : M State unit :=
  let searchTerm := toLowerCase value in
  filterAndRenderPosts searchTerm.

Definition search_box : string :=
  Js.nl +:+
  "      <input type=" +:+ Js.q +:+ "search" +:+ Js.q +:+ " " +:+ Js.nl +:+
  "             id=" +:+ Js.q +:+ "blog-search" +:+ Js.q +:+ " " +:+ Js.nl +:+
  "             placeholder=" +:+ Js.q +:+ "ブログ記事を検索..." +:+ Js.q +:+ " " +:+ Js.nl +:+
  "             class=" +:+ Js.q +:+ "search-input" +:+ Js.q +:+ Js.nl +:+
  "      >" +:+ Js.nl +:+
  "    ".

(** [blogSection.insertBefore(searchContainer, blogSection.firstChild)]
    throws when the page has no [#blog]; otherwise the search box becomes
    the first child, where [getElementById] then finds its input. *)
Definition addSearchFeature : M State unit :=
  let searchContainer :=
    {| tagName := "div"; className := "blog-search"; innerHTML := search_box |} in
  do d <- get_document ;
  match blog_section d with
  | None => throw (Js.TypeError "Cannot read properties of null (reading 'insertBefore')")
  | Some children =>
      set_document {| blog_posts := blog_posts d;
                      blog_section := Some (searchContainer :: children);
                      body_children := body_children d |}
  end.

(** [renderPosts()] with its default argument [this.posts]. *)
Definition renderPosts_default : M State unit :=
  do s <- get_this ;
  renderPosts (posts s).

Definition init (outcome : FetchOutcome PostsDocument) : M State unit :=
  try_catch
    (do _ <- fetchPosts outcome ;
     do _ <- renderPosts_default ;
     addSearchFeature)
    (fun error =>
       do _ <- console_error "初期化エラー:" error ;
       handleError error).

Definition renderComments (comments : list Comment.t) : string :=
  Js.Array_join
    (map (fun comment =>
            Js.nl +:+
            "      <div class=" +:+ Js.q +:+ "comment" +:+ Js.q +:+ ">" +:+ Js.nl +:+
            "        <h4>" +:+ Comment.name comment +:+ "</h4>" +:+ Js.nl +:+
            "        <p>" +:+ Comment.body comment +:+ "</p>" +:+ Js.nl +:+
            "        <small>" +:+ Comment.email comment +:+ "</small>" +:+ Js.nl +:+
            "      </div>" +:+ Js.nl +:+
            "    ")
         comments).

Definition modal_html (post : Post.t) (comments : list Comment.t) : string :=
  Js.nl +:+
  "    <div class=" +:+ Js.q +:+ "modal-content" +:+ Js.q +:+ ">" +:+ Js.nl +:+
  "      <button class=" +:+ Js.q +:+ "close-modal" +:+ Js.q +:+ ">閉じる</button>" +:+ Js.nl +:+
  "      <article class=" +:+ Js.q +:+ "post-detail" +:+ Js.q +:+ ">" +:+ Js.nl +:+
  "        <h2>" +:+ Post.title post +:+ "</h2>" +:+ Js.nl +:+
  "        <div class=" +:+ Js.q +:+ "post-content" +:+ Js.q +:+ ">" +:+ Post.body post +:+ "</div>" +:+ Js.nl +:+
  "        <div class=" +:+ Js.q +:+ "post-comments" +:+ Js.q +:+ ">" +:+ Js.nl +:+
  "          <h3>コメント(" +:+ Js.Number_toString (Z.of_nat (length comments)) +:+ ")</h3>" +:+ Js.nl +:+
  "          " +:+ renderComments comments +:+ Js.nl +:+
  "        </div>" +:+ Js.nl +:+
  "      </article>" +:+ Js.nl +:+
  "    </div>" +:+ Js.nl +:+
  "    ".

(** [setupModalEvents] only registers the two [click] listeners of the
    modal; nothing on the page changes until one of them fires. *)
Definition setupModalEvents (modal : Element) : M State unit := ret tt.

Definition renderPostsDetail (post : Post.t) (comments : list Comment.t) : M State unit :=
  do s <- get_this ;
  match this_document s with
  | None => throw (Js.TypeError "Cannot read properties of undefined (reading 'createElement')")
  | Some _ =>
      let modal :=
        {| tagName := "div"; className := "post-detail-modal";
           innerHTML := modal_html post comments |} in
      do d <- get_document ;
      do _ <- set_document {| blog_posts := blog_posts d;
                              blog_section := blog_section d;
                              body_children := (body_children d ++ [modal])%list |} ;
      setupModalEvents modal
  end.

Definition comments_url (postId : Z) : string :=
  "https://jsonplaceholder.typicode.com/posts/" +:+ Js.Number_toString postId +:+ "/comments".

Definition showPostDetail (postId : Z) (outcome : FetchOutcome (list Comment.t)) : M State unit :=
  try_catch
    (do s <- get_this ;
     do a <- read (posts s) ;
     match Js.Array_find (fun p => (Post.id p =? postId)%Z) a with
     | None => throw (Js.Error "投稿が見つかりません")
     | Some post =>
         do commentsResponse <- fetch (comments_url postId) outcome ;
         do comments <- response_json (snd commentsResponse) ;
         renderPostsDetail post comments
     end)
    (fun error => console_error "詳細表示エラー" error).

End WithHost.

(** *** The detail view as the specification sees it

    [Shown] when a detail modal is in the document, [Loading] while the
    comment request of [showPostDetail] is awaited, [Closed] otherwise. *)
Inductive DetailView : Type := Closed | Loading | Shown.

Definition is_modal (e : Element) : bool := String.eqb (className e) "post-detail-modal".

Definition modal_inserted (w : World State) : bool :=
  existsb is_modal (body_children (document w)).

(** The states the detail view goes through during [showPostDetail],
    read off the page before the call, at the suspension point (if the
    call reaches the request) and after it. *)
Definition phases (postId : Z) (outcome : FetchOutcome (list Comment.t))
    (w : World State) : list DetailView :=
  let w' := exec (showPostDetail postId outcome) w in
  let before := if modal_inserted w then Shown else Closed in
  let awaiting :=
    if (length (requests w) <? length (requests w'))%nat then [Loading] else [] in
  let after := if modal_inserted w' then Shown else Closed in
  (before :: awaiting ++ [after])%list.

End Simple.

(** ** The contact form

    The form as the validation code sees it: its controls in document
    order (text inputs and text areas, each with its [name], current
    [value], the value a reset restores, and whether it is [required]),
    the elements carrying a [data-error] attribute in document order, the
    [#submission-status] element ([None] when the page has none), what
    was written with [console.log], and the number of three-second
    timeouts that are pending.  Control names are taken to be free of
    double quotes and backslashes, so that they can stand in the
    attribute selector the code builds from them. *)

Module Form.

Record Field : Type := {
  name : string;
  value : string;
  defaultValue : string;
  required : bool
}.

(** An element with [data-error]: its text and whether its class list
    has [show]. *)
Record ErrorSpan : Type := {
  data_error : string;
  textContent : string;
  show : bool
}.

(** [statusDiv.textContent] and [statusDiv.className] *)
Record Status : Type := {
  status_text : string;
  status_class : string
}.

Inductive LogEntry : Type :=
  | LogData (label : string) (data : gmap string string)
  | LogText (first second : string).

Record Page : Type := {
  fields : list Field;
  spans : list ErrorSpan;
  statusDiv : option Status;
  log : list LogEntry;
  timers : nat
}.

(** [form.querySelector(`[data-error="${name}"]`)]: the first one. *)
Definition find_span (n : string) (ss : list ErrorSpan) : option ErrorSpan :=
  List.find (fun sp => String.eqb (data_error sp) n) ss.

(** Assign text and the presence of [show] to the first element with
    the given [data-error]; nothing happens when there is none. *)
Fixpoint update_span (n : string) (text : string) (shown : bool)
    (ss : list ErrorSpan) : list ErrorSpan :=
  match ss with
  | [] => []
  | sp :: rest =>
      if String.eqb (data_error sp) n
      then {| data_error := data_error sp; textContent := text; show := shown |} :: rest
      else sp :: update_span n text shown rest
  end.

Definition set_spans (ss : list ErrorSpan) (p : Page) : Page :=
  {| fields := fields p; spans := ss; statusDiv := statusDiv p;
     log := log p; timers := timers p |}.

(** What validating a control leaves in its error element: the message
    and [show] when the trimmed value is empty, no text and no [show]
    otherwise. *)
Definition verdict_span (trim : string -> string) (f : Field) (sp : ErrorSpan) : ErrorSpan :=
  {| data_error := data_error sp;
     textContent :=
       if String.eqb (trim (value f)) EmptyString then "必須項目です" else EmptyString;
     show := String.eqb (trim (value f)) EmptyString |}.

(** [new FormData(form)]: the named controls with their values. *)
Definition entries (p : Page) : list (string * string) :=
  map (fun f => (name f, value f))
      (List.filter (fun f => negb (String.eqb (name f) EmptyString)) (fields p)).

(** [Object.fromEntries]: a later entry of the same key wins. *)
Definition fromEntries (es : list (string * string)) : gmap string string :=
  fold_left (fun data e => <[fst e := snd e]> data) es ∅.

Definition console_log (e : LogEntry) (p : Page) : Page :=
  {| fields := fields p; spans := spans p; statusDiv := statusDiv p;
     log := (log p ++ [e])%list; timers := timers p |}.

(** [form.reset()] *)
Definition reset (p : Page) : Page :=
  {| fields := map (fun f => {| name := name f; value := defaultValue f;
                                defaultValue := defaultValue f;
                                required := required f |}) (fields p);
     spans := spans p; statusDiv := statusDiv p; log := log p; timers := timers p |}.

(** The callback both versions give to [setTimeout]: it runs once for
    each pending timeout, oldest first. *)
Definition timeout (p : Page) : Page :=
  match timers p, statusDiv p with
  | S n, Some _ =>
      {| fields := fields p; spans := spans p;
         statusDiv := Some {| status_text := EmptyString;
                              status_class := "submission-status" |};
         log := log p; timers := n |}
  | _, _ => p
  end.

End Form.

(** The first [ContactForm]. *)

Module ContactForm.
Import Form.

Section WithTrim.
(** [String.prototype.trim] *)
Variable trim : string -> string.

Definition validateField (field : Field) (p : Page) : bool * Page :=
  let isValid := negb (String.eqb (trim (value field)) EmptyString) in
  (isValid,
   set_spans
     (update_span (name field) (if isValid then EmptyString else "必須項目です")
        (negb isValid) (spans p))
     p).

(** [Array.prototype.every] with [validateField] as its callback: it
    stops at the first field for which the callback returns [false]. *)
Fixpoint every_validateField (fs : list Field) (p : Page) : bool * Page :=
  match fs with
  | [] => (true, p)
  | field :: rest =>
      let r := validateField field p in
      if fst r then every_validateField rest (snd r) else (false, snd r)
  end.

Definition validateForm (p : Page) : bool * Page :=
  every_validateField (List.filter required (fields p)) p.

(** The [blur] listener of a required field. *)
Definition field_onblur (field : Field) (p : Page) : Page :=
  snd (validateField field p).

Definition showStatus (message type : string) (p : Page) : Page :=
  match statusDiv p with
  | None => p
  | Some _ =>
      {| fields := fields p; spans := spans p;
         statusDiv := Some {| status_text := message;
                              status_class := "submission-status " +:+ type |};
         log := log p; timers := S (timers p) |}
  end.

Definition handleSubmit (p : Page) : Page :=
  let r := validateForm p in
  if negb (fst r) then showStatus "入力内容を確認してください" "error" (snd r)
  else
    let data := fromEntries (entries (snd r)) in
    let p1 := console_log (LogData "送信データ:" data) (snd r) in
    let p2 := showStatus "送信しました！" "success" p1 in
    reset p2.

End WithTrim.
End ContactForm.

(** The last [ContactForm]. *)

Module ContactFormSimple.
Import Form.

Section WithTrim.
Variable trim : string -> string.

(** The body of the [forEach] callback, with the flag [isValid] it
    updates. *)
Definition check (isValid : bool) (field : Field) (p : Page) : bool * Page :=
  if negb (Js.truthy (trim (value field)))
  then (false, set_spans (update_span (name field) "必須項目です" true (spans p)) p)
  else (isValid, set_spans (update_span (name field) EmptyString false (spans p)) p).

Fixpoint forEach_check (fs : list Field) (isValid : bool) (p : Page) : bool * Page :=
  match fs with
  | [] => (isValid, p)
  | field :: rest =>
      let r := check isValid field p in
      forEach_check rest (fst r) (snd r)
  end.

Definition validateForm (p : Page) : bool * Page :=
  forEach_check (List.filter required (fields p)) true p.

(** No guard here: without the status element the first assignment
    throws. *)
Definition showStatus (message type : string) (p : Page) : Js.Result unit * Page :=
  match statusDiv p with
  | None =>
      (Js.Throw (Js.TypeError "Cannot set properties of null (setting 'textContent')"), p)
  | Some _ =>
      (Js.Ok tt,
       {| fields := fields p; spans := spans p;
          statusDiv := Some {| status_text := message;
                               status_class := "submission-status " +:+ type |};
          log := log p; timers := S (timers p) |})
  end.

Definition handleSubmit (p : Page) : Js.Result unit * Page :=
  let r := validateForm p in
  if negb (fst r)
  then (Js.Ok tt, console_log (LogText "入力内容を確認してください" "error") (snd r))
  else
    let data := fromEntries (entries (snd r)) in
    let p1 := console_log (LogData "送信データ" data) (snd r) in
    match showStatus "送信しました！" "success" p1 with
    | (Js.Ok _, p2) => (Js.Ok tt, reset p2)
    | (Js.Throw e, p2) => (Js.Throw e, p2)
    end.

End WithTrim.
End ContactFormSimple.

(** ** The mobile menu

    The class lists of [.hamburger] and [.nav], on a page that has both;
    a click on the hamburger toggles [active] on both. *)

Module MobileMenu.

Record Page : Type := {
  hamburger : list string;
  nav : list string
}.

Definition hamburger_onclick (p : Page) : Page :=
  {| hamburger := Js.classList_toggle (hamburger p) "active";
     nav := Js.classList_toggle (nav p) "active" |}.

End MobileMenu.

(** ** The view the specification describes

    [Spec.apply] follows the words of the specification of the
    filter-and-sort engine (category step, then search step, then sort
    step, all three driven by one view state); it is what the code is
    compared with, not a translation of code. *)

Module Spec.

Record ViewState : Type := {
  activeCategory : string;
  searchTerm : string;
  sortOrder : string
}.

(** The view state the controls start from. *)
Definition initial : ViewState := {|
  activeCategory := "all";
  searchTerm := EmptyString;
  sortOrder := "newest"
|}.

(** Each action on a control changes its own component only. *)
Definition update (v : ViewState) (e : Full.Event) : ViewState :=
  match e with
  | Full.CategoryChange value =>
      {| activeCategory := value; searchTerm := searchTerm v; sortOrder := sortOrder v |}
  | Full.SearchInput value =>
      {| activeCategory := activeCategory v; searchTerm := value; sortOrder := sortOrder v |}
  | Full.SortChange value =>
      {| activeCategory := activeCategory v; searchTerm := searchTerm v; sortOrder := value |}
  end.

Definition after (events : list Full.Event) : ViewState :=
  fold_left update events initial.

Section WithHost.
Context {host : Host}.

Definition category_step (v : ViewState) (posts : list Post.t) : list Post.t :=
  if String.eqb (activeCategory v) "all" then posts
  else List.filter (fun p => String.eqb (Post.category p) (activeCategory v)) posts.

Definition search_step (v : ViewState) (posts : list Post.t) : list Post.t :=
  match searchTerm v with
  | EmptyString => posts
  | _ =>
      List.filter
        (fun p =>
           Js.includes (toLowerCase (Post.title p)) (toLowerCase (searchTerm v)) ||
           Js.includes (toLowerCase (Post.body p)) (toLowerCase (searchTerm v)))
        posts
  end.

Definition sort_step (v : ViewState) (posts : list Post.t) : list Post.t :=
  Js.Array_sort
    (fun a b =>
       if String.eqb (sortOrder v) "newest"
       then (Date_getTime (Post.date b) - Date_getTime (Post.date a))%Z
       else (Date_getTime (Post.date a) - Date_getTime (Post.date b))%Z)
    posts.

Definition apply (posts : list Post.t) (v : ViewState) : list Post.t :=
  sort_step v (search_step v (category_step v posts)).

End WithHost.
End Spec.

(** ** A host to run the code on

    [Sample.host] agrees with an engine on ASCII text and on date-only ISO
    strings ([YYYY-MM-DD], which denote midnight UTC), in a time zone at or
    east of UTC such as the page's own. *)

Module Sample.

Definition lower_ascii (c : ascii) : ascii :=
  let n := nat_of_ascii c in
  if ((65 <=? n) && (n <=? 90))%nat then ascii_of_nat (n + 32) else c.

Fixpoint toLowerCase (s : string) : string :=
  match s with
  | EmptyString => EmptyString
  | String c s' => String (lower_ascii c) (toLowerCase s')
  end.

Definition digit (c : ascii) : Z := (Z.of_nat (nat_of_ascii c) - 48)%Z.

Fixpoint digits (acc : Z) (s : string) : Z :=
  match s with
  | EmptyString => acc
  | String c s' => digits (10 * acc + digit c)%Z s'
  end.

Definition year (s : string) : Z := digits 0 (substring 0 4 s).
Definition month (s : string) : Z := digits 0 (substring 5 2 s).
Definition day (s : string) : Z := digits 0 (substring 8 2 s).

(** Days from 1970-01-01 to the given civil date. *)
Definition days_from_civil (y m d : Z) : Z :=
  (let y' := if m <=? 2 then y - 1 else y in
   let era := y' / 400 in
   let yoe := y' - era * 400 in
   let doy := (153 * (if 2 <? m then m - 3 else m + 9) + 2) / 5 + d - 1 in
   let doe := yoe * 365 + yoe / 4 - yoe / 100 + doy in
   era * 146097 + doe - 719468)%Z.

Definition Date_getTime (s : string) : Z :=
  (days_from_civil (year s) (month s) (day s) * 86400000)%Z.

Definition toLocaleDateString (s : string) : string :=
  Js.Number_toString (year s) +:+ "/" +:+ Js.Number_toString (month s) +:+ "/" +:+
  Js.Number_toString (day s).

(** [trim] for text whose white space is ASCII: space, tab, line feed,
    vertical tab, form feed, carriage return. *)
Definition is_space (c : ascii) : bool :=
  let n := nat_of_ascii c in
  ((n =? 32) || ((9 <=? n) && (n <=? 13)))%nat.

Fixpoint trim_start (s : string) : string :=
  match s with
  | EmptyString => EmptyString
  | String c s' => if is_space c then trim_start s' else s
  end.

Fixpoint trim_end (s : string) : string :=
  match s with
  | EmptyString => EmptyString
  | String c s' =>
      match trim_end s' with
      | EmptyString => if is_space c then EmptyString else String c EmptyString
      | t => String c t
      end
  end.

Definition trim (s : string) : string := trim_end (trim_start s).

Definition host : Host :=
  Build_Host toLowerCase Date_getTime toLocaleDateString
    "2024-06-01T00:00:00.000Z" eq_refl.

End Sample.

(** *** Sample data *)

Module Data.

Definition alpha : Post.t := {|
  Post.id := 1; Post.title := "Alpha release"; Post.body := "First notes";
  Post.date := "2024-01-15"; Post.author := "Aki"; Post.category := "tech" |}.

Definition beta : Post.t := {|
  Post.id := 2; Post.title := "Beta diary"; Post.body := "Life in Kyoto";
  Post.date := "2024-01-15"; Post.author := "Beni"; Post.category := "life" |}.

Definition gamma : Post.t := {|
  Post.id := 3; Post.title := "Gamma"; Post.body := "ALPHA again";
  Post.date := "2023-12-01"; Post.author := "Aki"; Post.category := "tech" |}.

Definition posts : list Post.t := [alpha; beta; gamma].

(** A page with an empty [.blog-posts] container and a [#blog] section. *)
Definition page : Document := {|
  blog_posts := Some EmptyString;
  blog_section := Some [];
  body_children := []
|}.

(** The first manager once the three posts are loaded. *)
Definition full : World Full.State := {|
  this := {| Full.posts := 0%nat; Full.categories := ["tech"; "life"];
             Full.currentFilter := "all"; Full.sortOrder := "newest" |};
  heap := {[ 0%nat := posts ]};
  document := page;
  console := [];
  requests := []
|}.

(** The simple manager once the three posts are loaded. *)
Definition simple : World Simple.State := {|
  this := {| Simple.posts := 0%nat; Simple.currentPost := None |};
  heap := {[ 0%nat := posts ]};
  document := page;
  console := [];
  requests := []
|}.

(** The simple manager as its constructor leaves it: [this.posts = []]. *)
Definition simple_new : World Simple.State := {|
  this := {| Simple.posts := 0%nat; Simple.currentPost := None |};
  heap := {[ 0%nat := [] ]};
  document := page;
  console := [];
  requests := []
|}.

(** The comment of the detail-view scenario. *)
Definition comment : Comment.t := {|
  Comment.name := "A"; Comment.body := "B"; Comment.email := "c@d.com" |}.

(** A contact form with three required controls and one optional one;
    the name is filled in, the e-mail address is blank and the message
    holds only spaces. *)
Definition form : Form.Page := {|
  Form.fields :=
    [ {| Form.name := "name"; Form.value := "Aki"; Form.defaultValue := EmptyString;
         Form.required := true |};
      {| Form.name := "email"; Form.value := EmptyString; Form.defaultValue := EmptyString;
         Form.required := true |};
      {| Form.name := "message"; Form.value := "   "; Form.defaultValue := EmptyString;
         Form.required := true |};
      {| Form.name := "phone"; Form.value := EmptyString; Form.defaultValue := EmptyString;
         Form.required := false |} ];
  Form.spans :=
    [ {| Form.data_error := "name"; Form.textContent := EmptyString; Form.show := false |};
      {| Form.data_error := "email"; Form.textContent := EmptyString; Form.show := false |};
      {| Form.data_error := "message"; Form.textContent := EmptyString; Form.show := false |} ];
  Form.statusDiv := Some {| Form.status_text := EmptyString;
                            Form.status_class := "submission-status" |};
  Form.log := [];
  Form.timers := 0
|}.

(** The same form filled in completely, on a page without the status
    element. *)
Definition form_filled : Form.Page := {|
  Form.fields :=
    [ {| Form.name := "name"; Form.value := "Aki"; Form.defaultValue := EmptyString;
         Form.required := true |};
      {| Form.name := "email"; Form.value := "aki@example.com";
         Form.defaultValue := EmptyString; Form.required := true |};
      {| Form.name := "message"; Form.value := "Hello"; Form.defaultValue := EmptyString;
         Form.required := true |} ];
  Form.spans := Form.spans form;
  Form.statusDiv := None;
  Form.log := [];
  Form.timers := 0
|}.

(** A page without the [.blog-posts] container. *)
Definition bare : World Full.State := {|
  this := this full;
  heap := heap full;
  document := {| blog_posts := None; blog_section := Some []; body_children := [] |};
  console := [];
  requests := []
|}.

(** A page without the [#blog] section, for the simple manager. *)
Definition simple_no_section : World Simple.State := {|
  this := this simple_new;
  heap := heap simple_new;
  document := {| blog_posts := Some EmptyString; blog_section := None;
                 body_children := [] |};
  console := [];
  requests := []
|}.

End Data.

(** * Properties *)

(** ** The built-ins *)

Section JsFacts.

Lemma Array_filter_fold {A} (f : A -> bool) (a kept : list A) :
  fold_left (fun kept x => if f x then kept ++ [x] else kept) a kept
  = kept ++ List.filter f a.
Proof.
  revert kept. induction a as [|x a IH]; intros kept; simpl.
  - now rewrite app_nil_r.
  - rewrite IH. destruct (f x); [now rewrite <- app_assoc | reflexivity].
Qed.

(** The loop of [filter] keeps exactly the elements satisfying the
    callback, in their order. *)
Lemma Array_filter_eq {A} (f : A -> bool) (a : list A) :
  Js.Array_filter f a = List.filter f a.
Proof. unfold Js.Array_filter. now rewrite Array_filter_fold. Qed.

Lemma append_cons (c : ascii) (s t : string) :
  String c s +:+ t = String c (s +:+ t).
Proof. reflexivity. Qed.

Lemma append_nil (t : string) : EmptyString +:+ t = t.
Proof. reflexivity. Qed.

Lemma prefix_spec (t s : string) :
  String.prefix t s = true <-> exists b, s = t +:+ b.
Proof.
  revert s. induction t as [|c t IH]; intros s.
  - split; [intros _; now exists s | intros _; now destruct s].
  - destruct s as [|c' s]; cbn [String.prefix].
    + split; [discriminate | intros [b Hb]; discriminate].
    + destruct (Ascii.ascii_dec c c') as [->|Hne].
      * rewrite IH. split; intros [b Hb]; exists b;
          rewrite append_cons in *; congruence.
      * split; [discriminate | intros [b Hb]; rewrite append_cons in Hb; congruence].
Qed.

(** [s.includes(t)] holds exactly when [t] is a substring of [s]. *)
Lemma includes_spec (s t : string) :
  Js.includes s t = true <-> substring_of t s.
Proof.
  unfold substring_of. induction s as [|c s IH]; cbn [Js.includes].
  - rewrite orb_false_r, prefix_spec. split.
    + intros [b Hb]. now exists EmptyString, b.
    + intros [a [b Hab]]. destruct a; [now exists b | discriminate].
  - rewrite orb_true_iff, prefix_spec, IH. split.
    + intros [[b Hb] | [a [b Hab]]].
      * now exists EmptyString, b.
      * exists (String c a), b. rewrite append_cons. now rewrite Hab.
    + intros [a [b Hab]]. destruct a as [|c' a].
      * left. now exists b.
      * right. exists a, b. rewrite append_cons in Hab. congruence.
Qed.

(** Every string includes the empty string. *)
Lemma includes_empty (s : string) : Js.includes s EmptyString = true.
Proof. destruct s; reflexivity. Qed.

Lemma sort_insert_perm {A} (cmp : A -> A -> Z) (x : A) (l : list A) :
  Permutation (Js.sort_insert cmp x l) (x :: l).
Proof.
  induction l as [|y l IH]; simpl; [reflexivity|].
  destruct (cmp x y <=? 0)%Z; [reflexivity|].
  rewrite IH. apply perm_swap.
Qed.

(** Sorting rearranges: nothing is added, dropped or duplicated. *)
Lemma Array_sort_perm {A} (cmp : A -> A -> Z) (a : list A) :
  Permutation (Js.Array_sort cmp a) a.
Proof.
  induction a as [|x a IH]; simpl; [reflexivity|].
  rewrite sort_insert_perm. now constructor.
Qed.

Lemma sort_insert_keeps_class {A} (key : A -> Z) (cmp : A -> A -> Z) :
  (forall x y, key x = key y -> (cmp x y <= 0)%Z) ->
  forall (t : Z) (x : A) (l : list A),
    List.filter (fun p => (key p =? t)%Z) (Js.sort_insert cmp x l)
    = List.filter (fun p => (key p =? t)%Z) (x :: l).
Proof.
  intros Hcmp t x l. induction l as [|y l IH]; [reflexivity|].
  cbn [Js.sort_insert]. destruct (cmp x y <=? 0)%Z eqn:E; [reflexivity|].
  cbn [List.filter] in *. rewrite IH.
  destruct (key y =? t)%Z eqn:Ey, (key x =? t)%Z eqn:Ex; try reflexivity.
  apply Z.eqb_eq in Ey, Ex. apply Z.leb_gt in E.
  specialize (Hcmp x y ltac:(congruence)). lia.
Qed.

(** Stability: when elements with equal keys never compare as [> 0], the
    elements of each key keep their relative order. *)
Lemma Array_sort_stable {A} (key : A -> Z) (cmp : A -> A -> Z) :
  (forall x y, key x = key y -> (cmp x y <= 0)%Z) ->
  forall (t : Z) (a : list A),
    List.filter (fun p => (key p =? t)%Z) (Js.Array_sort cmp a)
    = List.filter (fun p => (key p =? t)%Z) a.
Proof.
  intros Hcmp t a. induction a as [|x a IH]; [reflexivity|].
  cbn [Js.Array_sort]. rewrite (sort_insert_keeps_class key cmp Hcmp).
  cbn [List.filter]. now rewrite IH.
Qed.

Lemma sort_insert_HdRel {A} (cmp : A -> A -> Z) (x y : A) (l : list A) :
  (cmp y x <= 0)%Z ->
  HdRel (fun u v => (cmp u v <= 0)%Z) y l ->
  HdRel (fun u v => (cmp u v <= 0)%Z) y (Js.sort_insert cmp x l).
Proof.
  intros Hyx Hl. destruct l as [|z l]; simpl; [now constructor|].
  destruct (cmp x z <=? 0)%Z; constructor; [exact Hyx | now inversion Hl].
Qed.

(** For a comparator under which any two elements are ordered one way or
    the other, the result is in comparator order. *)
Lemma Array_sort_sorted {A} (cmp : A -> A -> Z) :
  (forall x y, (0 < cmp x y)%Z -> (cmp y x <= 0)%Z) ->
  forall a : list A, Sorted (fun u v => (cmp u v <= 0)%Z) (Js.Array_sort cmp a).
Proof.
  intros Htot a. induction a as [|x a IH]; simpl; [constructor|].
  induction IH as [|y l Hl IHl Hy]; simpl; [repeat constructor|].
  destruct (cmp x y <=? 0)%Z eqn:E.
  - constructor; [now constructor|]. constructor. now apply Z.leb_le.
  - constructor; [exact IHl|].
    apply sort_insert_HdRel; [|exact Hy]. apply Htot. now apply Z.leb_gt.
Qed.

End JsFacts.

Section Unique.
Context {A : Type} (key : A -> Z).

Lemma Sorted_impl (R R' : A -> A -> Prop) (l : list A) :
  (forall x y, R x y -> R' x y) -> Sorted R l -> Sorted R' l.
Proof.
  intros HR H. induction H as [|x l Hl IH Hd]; constructor; [exact IH|].
  destruct Hd; constructor. now apply HR.
Qed.

Lemma filter_key_head (x : A) (l : list A) :
  List.filter (fun p => (key p =? key x)%Z) (x :: l)
  = x :: List.filter (fun p => (key p =? key x)%Z) l.
Proof. simpl. now rewrite Z.eqb_refl. Qed.

(** Two lists in key order that agree on the order within every key
    are equal. *)
Lemma stable_sorted_unique (l1 l2 : list A) :
  StronglySorted (fun x y => (key x <= key y)%Z) l1 ->
  StronglySorted (fun x y => (key x <= key y)%Z) l2 ->
  (forall t, List.filter (fun p => (key p =? t)%Z) l1
             = List.filter (fun p => (key p =? t)%Z) l2) ->
  l1 = l2.
Proof.
  revert l2. induction l1 as [|x l1 IH]; intros l2 S1 S2 H.
  - destruct l2 as [|y l2]; [reflexivity|].
    specialize (H (key y)). rewrite filter_key_head in H. discriminate.
  - destruct l2 as [|y l2].
    + specialize (H (key x)). rewrite filter_key_head in H. discriminate.
    + apply StronglySorted_inv in S1 as [S1 F1], S2 as [S2 F2].
      rewrite List.Forall_forall in F1, F2.
      assert (Hyx : (key y <= key x)%Z).
      { assert (Hin : In x (y :: l2)).
        { eapply (proj1 (filter_In _ x (y :: l2))). rewrite <- (H (key x)), filter_key_head.
          now left. }
        destruct Hin as [<- | Hin]; [lia | now apply F2]. }
      assert (Hxy : (key x <= key y)%Z).
      { assert (Hin : In y (x :: l1)).
        { eapply (proj1 (filter_In _ y (x :: l1))). rewrite (H (key y)), filter_key_head.
          now left. }
        destruct Hin as [<- | Hin]; [lia | now apply F1]. }
      assert (Hk : key y = key x) by lia.
      pose proof (H (key x)) as Hx. rewrite filter_key_head in Hx.
      rewrite <- Hk, filter_key_head, Hk in Hx. injection Hx as -> _.
      f_equal. apply IH; [exact S1 | exact S2 |].
      intros t. specialize (H t). simpl in H.
      destruct (key y =? t)%Z; [now injection H | exact H].
Qed.
End Unique.

(** The result of the sort is determined by the two requirements of the
    language: any array in comparator order that keeps the order within
    each key is the one [Js.Array_sort] returns. *)
Lemma Array_sort_determined {A} (key : A -> Z) (cmp : A -> A -> Z) :
  (forall x y, (cmp x y <= 0)%Z <-> (key x <= key y)%Z) ->
  forall a b : list A,
    Sorted (fun u v => (cmp u v <= 0)%Z) b ->
    (forall t, List.filter (fun p => (key p =? t)%Z) b
               = List.filter (fun p => (key p =? t)%Z) a) ->
    b = Js.Array_sort cmp a.
Proof.
  intros Hk a b Hb Hst.
  assert (Htrans : Relations_1.Transitive (fun x y : A => (key x <= key y)%Z))
    by (intros x y z; lia).
  apply (stable_sorted_unique key).
  - apply Sorted_StronglySorted; [exact Htrans|].
    eapply Sorted_impl; [|exact Hb]. intros x y. apply Hk.
  - apply Sorted_StronglySorted; [exact Htrans|].
    eapply Sorted_impl; [|apply Array_sort_sorted].
    + intros x y. apply Hk.
    + intros x y Hxy. apply Hk. 
      destruct (Z.le_gt_cases (key y) (key x)) as [Hle|Hgt]; [exact Hle|].
      assert (cmp x y <= 0)%Z by (apply Hk; lia). lia.
  - intros t. rewrite Hst. symmetry. apply (Array_sort_stable key).
    intros x y E. apply Hk. lia.
Qed.


Section StringFacts.

Lemma or_else_nonempty (a b : string) :
  b <> EmptyString -> Js.or_else a b <> EmptyString.
Proof. intros Hb. unfold Js.or_else. destruct a; [exact Hb | discriminate]. Qed.

End StringFacts.

(** ** Binary64 comparisons and rounding *)

Section FloatFacts.
Local Open Scope float_scope.

Lemma is_nan_SF (x : float) : is_nan x = true <-> Prim2SF x = S754_nan.
Proof.
  unfold is_nan. rewrite FloatAxioms.eqb_spec. unfold SFeqb.
  destruct (Prim2SF x) as [s|s| |s m e]; simpl; split; try congruence; try discriminate.
  - destruct s; discriminate.
  - destruct s; rewrite Z.compare_refl, Pos.compare_cont_refl; discriminate.
Qed.

Lemma is_nan_false_SF (x : float) : is_nan x = false <-> Prim2SF x <> S754_nan.
Proof. rewrite <- is_nan_SF. destruct (is_nan x); split; congruence. Qed.

Lemma ltb_leb (x y : float) : (x <? y) = true -> (x <=? y) = true.
Proof.
  rewrite ltb_spec, leb_spec. unfold SFltb, SFleb.
  destruct (SFcompare _ _) as [[]|]; congruence.
Qed.

Lemma SFcompare_swap (x y : spec_float) :
  SFcompare y x = option_map CompOpp (SFcompare x y).
Proof.
  destruct x as [s|s| |s m e], y as [s'|s'| |s' m' e']; simpl; try reflexivity;
    try (destruct s; reflexivity); try (destruct s'; reflexivity);
    try (destruct s, s'; reflexivity).
  pose proof (Pos.compare_cont_antisym m m' Eq) as P; simpl in P.
  f_equal. rewrite (Z.compare_antisym e e'), <- P.
  destruct s, s'; simpl; try reflexivity;
    destruct (e ?= e')%Z; simpl; try reflexivity.
  all: destruct (Pos.compare_cont Eq m m'); reflexivity.
Qed.

(** Two numbers, neither a NaN, are comparable. *)
Lemma ltb_false_leb (a x : float) :
  is_nan a = false -> is_nan x = false -> (x <? a) = false -> (a <=? x) = true.
Proof.
  rewrite !is_nan_false_SF, ltb_spec, leb_spec. unfold SFltb, SFleb.
  intros Ha Hx. rewrite (SFcompare_swap (Prim2SF a) (Prim2SF x)).
  destruct (SFcompare (Prim2SF a) (Prim2SF x)) as [[]|] eqn:E; simpl; try congruence.
  destruct (Prim2SF a) as [s|s| |s m e], (Prim2SF x) as [s'|s'| |s' m' e'];
    simpl in E; congruence.
Qed.

Lemma ltb_irrefl (a : float) : (a <? a) = false.
Proof.
  rewrite ltb_spec. unfold SFltb.
  pose proof (SFcompare_swap (Prim2SF a) (Prim2SF a)) as E.
  destruct (SFcompare _ _) as [[]|]; simpl in E; congruence.
Qed.

Lemma leb_refl (a : float) : is_nan a = false -> (a <=? a) = true.
Proof. intros Ha. apply ltb_false_leb; auto using ltb_irrefl. Qed.

(** [Math.max] of two numbers is one of them and bounds both. *)
Lemma Math_max_spec (a x : float) :
  is_nan a = false -> is_nan x = false ->
  (Js.Math_max a x = a \/ Js.Math_max a x = x) /\
  (a <=? Js.Math_max a x) = true /\ (x <=? Js.Math_max a x) = true.
Proof.
  intros Ha Hx. unfold Js.Math_max. rewrite Ha, Hx. simpl.
  destruct (a <? x) eqn:E1; [|destruct (x <? a) eqn:E2; [|destruct (get_sign a)]];
    auto using ltb_leb, leb_refl, ltb_false_leb.
Qed.

(** [Math.min] of two numbers is one of them and is bounded by both. *)
Lemma Math_min_spec (a x : float) :
  is_nan a = false -> is_nan x = false ->
  (Js.Math_min a x = a \/ Js.Math_min a x = x) /\
  (Js.Math_min a x <=? a) = true /\ (Js.Math_min a x <=? x) = true.
Proof.
  intros Ha Hx. unfold Js.Math_min. rewrite Ha, Hx. simpl.
  destruct (a <? x) eqn:E1; [|destruct (x <? a) eqn:E2; [|destruct (get_sign a)]];
    auto using ltb_leb, leb_refl, ltb_false_leb.
Qed.

(** Rounding a non-negative significand never produces a NaN. *)

Lemma iter_shr_1_nonneg (p : positive) :
  forall mrs, (0 <= shr_m mrs)%Z -> (0 <= shr_m (SpecFloat.iter_pos shr_1 p mrs))%Z.
Proof.
  assert (H1 : forall mrs, (0 <= shr_m mrs)%Z -> (0 <= shr_m (shr_1 mrs))%Z).
  { intros [m r s]; simpl. destruct m as [|[k|k|]|[k|k|]]; simpl; lia. }
  induction p; simpl; intros mrs H; auto.
Qed.

Lemma shr_fexp_nonneg (prec emax m e : Z) (l : location) :
  (0 <= m)%Z -> (0 <= shr_m (fst (shr_fexp prec emax m e l)))%Z.
Proof.
  intros H. unfold shr_fexp, shr.
  assert (H0 : (0 <= shr_m (shr_record_of_loc m l))%Z)
    by (destruct l as [|[]]; simpl; exact H).
  destruct (_ - e)%Z; simpl; auto using iter_shr_1_nonneg.
Qed.

Lemma round_nearest_even_nonneg (m : Z) (l : location) :
  (0 <= m)%Z -> (0 <= round_nearest_even m l)%Z.
Proof.
  intros H. destruct l as [|[]]; simpl; try lia. destruct (Z.even m); lia.
Qed.

Lemma binary_round_aux_not_nan (prec emax : Z) (s : bool) (m e : Z) (l : location) :
  (0 <= m)%Z -> binary_round_aux prec emax s m e l <> S754_nan.
Proof.
  intros H. unfold binary_round_aux.
  pose proof (shr_fexp_nonneg prec emax m e l H) as H1.
  destruct (shr_fexp prec emax m e l) as [mrs' e']. simpl in H1.
  pose proof (shr_fexp_nonneg prec emax _ e' loc_Exact
                (round_nearest_even_nonneg _ (loc_of_shr_record mrs') H1)) as H2.
  destruct (shr_fexp prec emax _ e' loc_Exact) as [mrs'' e'']. simpl in H2.
  destruct (shr_m mrs''); [discriminate| |lia].
  destruct (e'' <=? _)%Z; discriminate.
Qed.

Lemma binary_normalize_not_nan (prec emax m e : Z) (sz : bool) :
  binary_normalize prec emax m e sz <> S754_nan.
Proof.
  unfold binary_normalize, binary_round.
  destruct m; [discriminate| |];
    destruct (shl_align _ _ _); apply binary_round_aux_not_nan; lia.
Qed.

(** Dividing a number by the threshold gives a number. *)
Lemma div_threshold_not_nan (x : float) :
  is_nan x = false -> is_nan (x / UI.scrollThreshold) = false.
Proof.
  rewrite !is_nan_false_SF, div_spec. intros H.
  change (Prim2SF UI.scrollThreshold) with (S754_finite false 7036874417766400 (-46)).
  unfold SF64div, SFdiv.
  destruct (Prim2SF x) as [s|s| |s m e]; try discriminate; try congruence.
  destruct (SFdiv_core_binary _ _ _ _ _ _) as [[mz ez] lz] eqn:E.
  apply binary_round_aux_not_nan.
  unfold SFdiv_core_binary in E.
  destruct (Z.div_eucl _ _) as [k r] eqn:D. injection E as <- _ _.
  match type of D with Z.div_eucl ?a ?b = _ =>
    assert (0 <= a)%Z as Ha;
    [| pose proof (Z_div_mod a b ltac:(lia)) as X; rewrite D in X; nia ]
  end.
  destruct (_ - _ - _)%Z; try lia. apply Z.shiftl_nonneg. lia.
Qed.

(** Subtracting a number from one gives a number. *)
Lemma one_minus_not_nan (y : float) : is_nan y = false -> is_nan (1 - y) = false.
Proof.
  rewrite !is_nan_false_SF, sub_spec. intros H.
  change (Prim2SF 1) with (S754_finite false 4503599627370496 (-52)).
  unfold SF64sub, SFsub.
  destruct (Prim2SF y) as [s|s| |s m e]; try discriminate; try congruence.
  apply binary_normalize_not_nan.
Qed.

End FloatFacts.

(** ** Header opacity *)

(** C10.  For every scroll position that is a number (zero, beyond the
    threshold, negative or infinite), the opacity [calculateOpacity]
    returns lies between [headerOpacityMin] (0.6) and [headerOpacityMax]
    (0.9), bounds included. *)
Theorem calculateOpacity_within_bounds (scrollTop : float) :
  is_nan scrollTop = false ->
  (UI.headerOpacityMin UI.CONFIG_scroll <=? UI.calculateOpacity scrollTop)%float = true /\
  (UI.calculateOpacity scrollTop <=? UI.headerOpacityMax UI.CONFIG_scroll)%float = true.
Proof.
  intros Hs. unfold UI.calculateOpacity.
  pose proof (one_minus_not_nan _ (div_threshold_not_nan _ Hs)) as Hv.
  set (v := (1 - scrollTop / UI.scrollThreshold)%float) in *.
  set (lo := UI.headerOpacityMin UI.CONFIG_scroll).
  set (hi := UI.headerOpacityMax UI.CONFIG_scroll).
  assert (Hlo : is_nan lo = false) by reflexivity.
  assert (Hhi : is_nan hi = false) by reflexivity.
  destruct (Math_max_spec lo v Hlo Hv) as (Hm & Hm1 & _).
  assert (Hmn : is_nan (Js.Math_max lo v) = false) by (destruct Hm as [-> | ->]; assumption).
  destruct (Math_min_spec hi _ Hhi Hmn) as (Hr & Hr1 & _).
  split; [|exact Hr1].
  destruct Hr as [-> | ->]; [reflexivity | exact Hm1].
Qed.

Lemma calculateOpacity_within_bounds_witness :
  (UI.headerOpacityMin UI.CONFIG_scroll <=? UI.calculateOpacity 250)%float = true /\
  (UI.calculateOpacity 250 <=? UI.headerOpacityMax UI.CONFIG_scroll)%float = true.
Proof. apply (calculateOpacity_within_bounds 250%float). reflexivity. Defined.

Example calculateOpacity_top : UI.calculateOpacity 0%float = UI.headerOpacityMax UI.CONFIG_scroll.
Proof. reflexivity. Qed.

Example calculateOpacity_far : UI.calculateOpacity 5000%float = UI.headerOpacityMin UI.CONFIG_scroll.
Proof. reflexivity. Qed.

Example calculateOpacity_mid : UI.calculateOpacity 25%float = 0.75%float.
Proof. reflexivity. Qed.

(** ** The heap of arrays *)

Section HeapFacts.
Implicit Types (h : gmap ref (list Post.t)) (r : ref) (a x : list Post.t).

Lemma fresh_not_allocated h r a : h !! r = Some a -> r <> fresh (dom h).
Proof.
  intros Hr ->. apply (is_fresh (dom h)). now apply (elem_of_dom_2 h _ a).
Qed.

(** Allocating leaves every existing array as it was. *)
Lemma lookup_alloc_old h r a x :
  h !! r = Some a -> <[fresh (dom h) := x]> h !! r = Some a.
Proof.
  intros Hr. rewrite lookup_insert_ne; [exact Hr|].
  intros E. now apply (fresh_not_allocated h r a).
Qed.

Lemma lookup_total_alloc_new h x : <[fresh (dom h) := x]> h !!! fresh (dom h) = x.
Proof. apply lookup_total_insert_eq. Qed.

Lemma lookup_total_Some h r a : h !! r = Some a -> h !!! r = a.
Proof. apply lookup_total_correct. Qed.

End HeapFacts.

(** ** The first manager: loading, listing, filtering, searching, sorting *)

Section FullFacts.
Context {host : Host}.
Implicit Types (w : World Full.State) (a : list Post.t).

Lemma article_nonempty (post : Post.t) : Full.article post <> EmptyString.
Proof. discriminate. Qed.

(** The listing of no posts is the placeholder; any other listing is the
    concatenation of the articles. *)
Lemma listing_nil : Full.listing [] = Full.placeholder.
Proof. reflexivity. Qed.

Lemma listing_nonempty a : Full.listing a <> EmptyString.
Proof. apply or_else_nonempty. discriminate. Qed.

Lemma renderPosts_exec w r a html :
  heap w !! r = Some a ->
  blog_posts (document w) = Some html ->
  Full.renderPosts r w =
  (Js.Ok tt,
   mkWorld (this w) (heap w) (Full.set_blog_posts (document w) (Full.listing a))
     (console w) (requests w)).
Proof.
  intros Ha Hc. unfold Full.renderPosts. run_monad. rewrite Hc. simpl.
  now rewrite (lookup_total_Some _ _ _ Ha).
Qed.

(** Rendering without a container changes nothing. *)
Lemma renderPosts_no_container w r :
  blog_posts (document w) = None -> Full.renderPosts r w = (Js.Ok tt, w).
Proof. intros Hc. unfold Full.renderPosts. run_monad. now rewrite Hc. Qed.

(** What a listener does to the page. *)
Lemma handle_exec w (e : Full.Event) a html :
  heap w !! Full.posts (this w) = Some a ->
  blog_posts (document w) = Some html ->
  let w' := exec (Full.handle e) w in
  blog_posts (document w') = Some (Full.listing (Full.step_alone e a)) /\
  Full.posts (this w') = Full.posts (this w) /\
  (forall r x, heap w !! r = Some x -> heap w' !! r = Some x).
Proof.
  intros Ha Hc. destruct w as [s h d c rq]. simpl in *.
  destruct e as [value|value|value]; cbn [Full.handle Full.step_alone].
  - unfold Full.categorySelect_onchange, Full.filterByCategory,
      Full.set_currentFilter, Full.renderPosts. run_monad.
    destruct (String.eqb value "all"); simpl; rewrite Hc; simpl.
    + rewrite (lookup_total_Some _ _ _ Ha). auto.
    + rewrite lookup_total_alloc_new, (lookup_total_Some _ _ _ Ha), Array_filter_eq.
      split; [reflexivity | split; [reflexivity|]].
      intros r x Hr. now apply lookup_alloc_old.
  - unfold Full.searchInput_oninput, Full.renderPosts. run_monad.
    rewrite Hc. simpl.
    rewrite lookup_total_alloc_new, (lookup_total_Some _ _ _ Ha), Array_filter_eq.
    split; [reflexivity | split; [reflexivity|]].
    intros r x Hr. now apply lookup_alloc_old.
  - unfold Full.sortSelect_onchange, Full.sortPosts, Full.set_sortOrder,
      Full.renderPosts. run_monad.
    rewrite Hc. simpl.
    rewrite lookup_total_insert_eq, lookup_total_alloc_new, (lookup_total_Some _ _ _ Ha).
    split; [reflexivity | split; [reflexivity|]].
    intros r x Hr. rewrite lookup_insert_ne; [now apply lookup_alloc_old|].
    intros E. now apply (fresh_not_allocated h r x).
Qed.

(** Without a container a listener still leaves the arrays alone. *)
Lemma handle_frame w (e : Full.Event) :
  let w' := exec (Full.handle e) w in
  Full.posts (this w') = Full.posts (this w) /\
  (forall r x, heap w !! r = Some x -> heap w' !! r = Some x).
Proof.
  destruct w as [s h d c rq].
  destruct e as [value|value|value]; cbn [Full.handle].
  - unfold Full.categorySelect_onchange, Full.filterByCategory,
      Full.set_currentFilter, Full.renderPosts. run_monad.
    destruct (String.eqb value "all"); simpl; destruct (blog_posts d); simpl;
      (split; [reflexivity|]); intros r x Hr; auto using lookup_alloc_old.
  - unfold Full.searchInput_oninput, Full.renderPosts. run_monad.
    destruct (blog_posts d); simpl;
      (split; [reflexivity|]); intros r x Hr; auto using lookup_alloc_old.
  - unfold Full.sortSelect_onchange, Full.sortPosts, Full.set_sortOrder,
      Full.renderPosts. run_monad.
    destruct (blog_posts d); simpl; (split; [reflexivity|]); intros r x Hr;
      (rewrite lookup_insert_ne; [now apply lookup_alloc_old|]);
      intros E; now apply (fresh_not_allocated h r x).
Qed.

Lemma run_app (es es' : list Full.Event) w :
  Full.run (es ++ es') w = Full.run es' (Full.run es w).
Proof. unfold Full.run. apply fold_left_app. Qed.

Lemma run_frame (events : list Full.Event) w :
  Full.posts (this (Full.run events w)) = Full.posts (this w) /\
  (forall r x, heap w !! r = Some x -> heap (Full.run events w) !! r = Some x).
Proof.
  revert w. induction events as [|e es IH]; intros w; [now split|].
  cbn [Full.run fold_left]. fold (Full.run es (exec (Full.handle e) w)).
  destruct (IH (exec (Full.handle e) w)) as [IH1 IH2].
  destruct (handle_frame w e) as [H1 H2].
  split; [congruence | auto].
Qed.

(** Once the container exists it stays. *)
Lemma run_container (events : list Full.Event) w html :
  blog_posts (document w) = Some html ->
  exists html', blog_posts (document (Full.run events w)) = Some html'.
Proof.
  revert w html. induction events as [|e es IH]; intros w html Hc; [now exists html|].
  cbn [Full.run fold_left]. fold (Full.run es (exec (Full.handle e) w)).
  assert (exists html', blog_posts (document (exec (Full.handle e) w)) = Some html')
    as [html' Hc'].
  { destruct w as [s h d c rq]. simpl in Hc.
    destruct e as [value|value|value]; cbn [Full.handle];
      unfold Full.categorySelect_onchange, Full.filterByCategory,
        Full.set_currentFilter, Full.searchInput_oninput,
        Full.sortSelect_onchange, Full.sortPosts, Full.set_sortOrder,
        Full.renderPosts; run_monad;
      try destruct (String.eqb value "all"); simpl; rewrite Hc; simpl; eauto. }
  exact (IH _ _ Hc').
Qed.

End FullFacts.

(** ** Loading *)

(** C3.  Whenever the fetch of the posts fails (the request is rejected,
    the response is not a success, or the body does not parse),
    [fetchPosts] completes normally, logs the error, and leaves in the
    store exactly one post: id 1, the title announcing the error, author
    "システム" and category "エラー". *)
Theorem fetchPosts_failure_fallback {host : Host} (w : World Full.State)
    (outcome : FetchOutcome PostsDocument) :
  fetch_fails outcome = true ->
  let w' := exec (Full.fetchPosts outcome) w in
  outcome_of (Full.fetchPosts outcome) w = Js.Ok tt /\
  (exists post,
     heap w' !! Full.posts (this w') = Some [post] /\
     Post.id post = 1%Z /\
     Post.title post = "エラーが発生しました" /\
     Post.author post = "システム" /\
     Post.category post = "エラー") /\
  length (console w') = S (length (console w)).
Proof.
  intros Hf. destruct w as [s h d c rq].
  assert (Hlen : forall e, length (c ++ [("データ取得エラー:", e)]) = S (length c)).
  { intros e. rewrite length_app. simpl. lia. }
  destruct outcome as [e | ok [e | data]]; simpl in Hf.
  - unfold Full.fetchPosts, Full.set_posts. run_monad.
    split; [reflexivity|]. split; [|apply Hlen].
    exists Full.fallback_post. rewrite lookup_insert_eq. now repeat split.
  - destruct ok; unfold Full.fetchPosts, Full.set_posts; run_monad;
      (split; [reflexivity|]); (split; [|apply Hlen]);
      exists Full.fallback_post; rewrite lookup_insert_eq; now repeat split.
  - destruct ok; [discriminate|].
    unfold Full.fetchPosts, Full.set_posts; run_monad.
    split; [reflexivity|]. split; [|apply Hlen].
    exists Full.fallback_post. rewrite lookup_insert_eq. now repeat split.
Qed.

Lemma fetchPosts_failure_fallback_witness :
  let outcome : FetchOutcome PostsDocument :=
    Response false (JsonValue {| doc_posts := Data.posts |}) in
  let w' := exec (Full.fetchPosts (host := Sample.host) outcome) Data.full in
  outcome_of (Full.fetchPosts (host := Sample.host) outcome) Data.full = Js.Ok tt /\
  (exists post,
     heap w' !! Full.posts (this w') = Some [post] /\
     Post.id post = 1%Z /\
     Post.title post = "エラーが発生しました" /\
     Post.author post = "システム" /\
     Post.category post = "エラー") /\
  length (console w') = S (length (console Data.full)).
Proof.
  exact (fetchPosts_failure_fallback (host := Sample.host) Data.full
           (Response false (JsonValue {| doc_posts := Data.posts |})) eq_refl).
Defined.

(** On success the store holds the posts of the document, in its order. *)
Lemma fetchPosts_success {host : Host} (w : World Full.State) (data : PostsDocument) :
  let w' := exec (Full.fetchPosts (Response true (JsonValue data))) w in
  heap w' !! Full.posts (this w') = Some (doc_posts data).
Proof.
  destruct w as [s h d c rq]. unfold Full.fetchPosts, Full.set_posts. run_monad.
  apply lookup_insert_eq.
Qed.

(** ** The category filter *)

(** C4.  With a category other than "all", the listing shows a post
    exactly when it is a stored post whose category equals the selected
    one, character for character; with "all" it shows the stored posts as
    they are. *)
Theorem filterByCategory_exact {host : Host} (w : World Full.State)
    (category : string) (a : list Post.t) (html : string) :
  heap w !! Full.posts (this w) = Some a ->
  blog_posts (document w) = Some html ->
  let shown :=
    if String.eqb category "all" then a
    else List.filter (fun post => String.eqb (Post.category post) category) a in
  blog_posts (document (exec (Full.filterByCategory category) w))
    = Some (Full.listing shown) /\
  (category <> "all" ->
   forall post, In post shown <-> In post a /\ Post.category post = category) /\
  (category = "all" -> shown = a).
Proof.
  intros Ha Hc shown.
  destruct (handle_exec w (Full.CategoryChange category) a html Ha Hc) as [Hv _].
  split; [exact Hv|]. subst shown. split.
  - intros Hne. apply String.eqb_neq in Hne. rewrite Hne. intros post.
    rewrite filter_In, String.eqb_eq. reflexivity.
  - intros ->. reflexivity.
Qed.

Lemma filterByCategory_exact_witness :
  blog_posts (document (exec (Full.filterByCategory (host := Sample.host) "tech") Data.full))
    = Some (Full.listing (host := Sample.host) [Data.alpha; Data.gamma]) /\
  ("tech" <> "all" ->
   forall post, In post [Data.alpha; Data.gamma]
                <-> In post Data.posts /\ Post.category post = "tech") /\
  ("tech" = "all" -> [Data.alpha; Data.gamma] = Data.posts).
Proof.
  exact (filterByCategory_exact (host := Sample.host) Data.full "tech" Data.posts
           EmptyString eq_refl eq_refl).
Defined.

(** Upper case is another category. *)
Example filterByCategory_case_sensitive :
  blog_posts (document (exec (Full.filterByCategory (host := Sample.host) "Tech") Data.full))
  = Some Full.placeholder.
Proof. reflexivity. Qed.

(** ** The date sort *)

Lemma compareFn_equal_dates {host : Host} (order : string) (x y : Post.t) :
  Date_getTime (Post.date x) = Date_getTime (Post.date y) ->
  (Full.compareFn order x y <= 0)%Z.
Proof. intros E. unfold Full.compareFn. destruct (String.eqb order "newest"); lia. Qed.

(** C6.  Under "newest" and under "oldest" (and any other value of the
    select), the sorted array is a rearrangement of the stored posts in
    which, for every timestamp, the posts with that timestamp come in the
    order they had in the store; it is what the listing shows. *)
Theorem sortPosts_stable {host : Host} (w : World Full.State) (order : string)
    (a : list Post.t) (html : string) :
  heap w !! Full.posts (this w) = Some a ->
  blog_posts (document w) = Some html ->
  let sorted := Js.Array_sort (Full.compareFn order) a in
  blog_posts (document (exec (Full.sortSelect_onchange order) w))
    = Some (Full.listing sorted) /\
  Permutation sorted a /\
  (forall t : Z,
     List.filter (fun post => (Date_getTime (Post.date post) =? t)%Z) sorted
     = List.filter (fun post => (Date_getTime (Post.date post) =? t)%Z) a).
Proof.
  intros Ha Hc sorted.
  destruct (handle_exec w (Full.SortChange order) a html Ha Hc) as [Hv _].
  split; [exact Hv|]. split; [apply Array_sort_perm|].
  intros t. subst sorted.
  apply (Array_sort_stable (fun post => Date_getTime (Post.date post))).
  intros x y. apply compareFn_equal_dates.
Qed.

Lemma sortPosts_stable_witness :
  let sorted := [Data.gamma; Data.alpha; Data.beta] in
  blog_posts (document (exec (Full.sortSelect_onchange (host := Sample.host) "oldest") Data.full))
    = Some (Full.listing (host := Sample.host) sorted) /\
  Permutation sorted Data.posts /\
  (forall t : Z,
     List.filter (fun post => (Sample.Date_getTime (Post.date post) =? t)%Z) sorted
     = List.filter (fun post => (Sample.Date_getTime (Post.date post) =? t)%Z) Data.posts).
Proof.
  exact (sortPosts_stable (host := Sample.host) Data.full "oldest" Data.posts
           EmptyString eq_refl eq_refl).
Defined.

Example sortPosts_newest_keeps_ties :
  Js.Array_sort (Full.compareFn (host := Sample.host) "newest") Data.posts
  = [Data.alpha; Data.beta; Data.gamma].
Proof. reflexivity. Qed.

(** X7.  The sorted array is in date order: newest first under
    "newest", oldest first otherwise. *)
Lemma sortPosts_ordered {host : Host} (order : string) (a : list Post.t) :
  Sorted (fun x y =>
            if String.eqb order "newest"
            then (Date_getTime (Post.date y) <= Date_getTime (Post.date x))%Z
            else (Date_getTime (Post.date x) <= Date_getTime (Post.date y))%Z)
         (Js.Array_sort (Full.compareFn order) a).
Proof.
  pose proof (Array_sort_sorted (Full.compareFn order)) as H.
  eapply Sorted_ind with (P := fun l => Sorted _ l); [constructor | | apply H].
  - intros x l _ IH Hd. constructor; [exact IH|].
    destruct Hd as [|y l Hxy]; constructor.
    unfold Full.compareFn in Hxy. destruct (String.eqb order "newest"); lia.
  - intros x y. unfold Full.compareFn. destruct (String.eqb order "newest"); lia.
Qed.

(** The engine has no choice: a stable sort by this comparator returns
    the array of the model. *)
Lemma sortPosts_determined {host : Host} (order : string) (a b : list Post.t) :
  Sorted (fun x y => (Full.compareFn order x y <= 0)%Z) b ->
  (forall t : Z,
     List.filter (fun post => (Date_getTime (Post.date post) =? t)%Z) b
     = List.filter (fun post => (Date_getTime (Post.date post) =? t)%Z) a) ->
  b = Js.Array_sort (Full.compareFn order) a.
Proof.
  intros Hb Hst.
  destruct (String.eqb order "newest") eqn:E.
  - apply (Array_sort_determined (fun p => (- Date_getTime (Post.date p))%Z)).
    + intros x y. unfold Full.compareFn. rewrite E. lia.
    + exact Hb.
    + intros t.
      assert (Hf : forall p : Post.t,
                 (- Date_getTime (Post.date p) =? t)%Z
                 = (Date_getTime (Post.date p) =? - t)%Z).
      { intros p. destruct (Z.eqb_spec (- Date_getTime (Post.date p)) t),
                           (Z.eqb_spec (Date_getTime (Post.date p)) (- t));
          try reflexivity; lia. }
      rewrite !(filter_ext _ _ Hf). apply Hst.
  - apply (Array_sort_determined (fun p => Date_getTime (Post.date p))).
    + intros x y. unfold Full.compareFn. rewrite E. lia.
    + exact Hb.
    + exact Hst.
Qed.

(** ** The three controls together *)

(** C1, as the code has it.  After any sequence of actions on the three
    controls, the listing is the result of the last action's step alone,
    applied to the whole stored collection: the category filter after a
    category change, the search filter after a keystroke in the search
    box, the date sort after a change of sort order.  The settings of the
    other two controls play no part. *)
Theorem view_is_last_step_alone {host : Host} (w : World Full.State)
    (events : list Full.Event) (e : Full.Event) (a : list Post.t) (html : string) :
  heap w !! Full.posts (this w) = Some a ->
  blog_posts (document w) = Some html ->
  blog_posts (document (Full.run (events ++ [e]) w))
  = Some (Full.listing (Full.step_alone e a)).
Proof.
  intros Ha Hc. rewrite run_app. cbn [Full.run fold_left].
  destruct (run_frame events w) as [Hp Hh].
  destruct (run_container events w html Hc) as [html' Hc'].
  apply (handle_exec (Full.run events w) e a html'); [|exact Hc'].
  rewrite Hp. now apply Hh.
Qed.

Lemma view_is_last_step_alone_witness :
  blog_posts (document (Full.run (host := Sample.host)
                          ([Full.SearchInput "alpha"] ++ [Full.CategoryChange "life"])
                          Data.full))
  = Some (Full.listing (host := Sample.host)
            (Full.step_alone (host := Sample.host) (Full.CategoryChange "life") Data.posts)).
Proof.
  exact (view_is_last_step_alone (host := Sample.host) Data.full
           [Full.SearchInput "alpha"] (Full.CategoryChange "life") Data.posts
           EmptyString eq_refl eq_refl).
Defined.

(** C1 does not hold as stated.  The user types "alpha" in the search box and
    then selects the category "life".  No post of category "life"
    contains "alpha", so the three steps together leave nothing to show;
    the page lists the one post of category "life". *)
Lemma view_not_composed :
  let events := [Full.SearchInput "alpha"; Full.CategoryChange "life"] in
  let shown := blog_posts (document (Full.run (host := Sample.host) events Data.full)) in
  Spec.apply (host := Sample.host) Data.posts (Spec.after events) = [] /\
  shown = Some (Full.listing (host := Sample.host) [Data.beta]) /\
  shown <> Some (Full.listing (host := Sample.host)
                   (Spec.apply (host := Sample.host) Data.posts (Spec.after events))).
Proof.
  split; [reflexivity|]. split; [reflexivity|].
  intros H. vm_compute in H. discriminate H.
Qed.

(** ** The stored collection is left alone *)

(** C9.  After any sequence of category changes, searches and sorts, the
    store refers to the same array, that array holds the same posts in
    the same order, and so does every other array that existed before. *)
Theorem stored_posts_never_mutated {host : Host} (w : World Full.State)
    (events : list Full.Event) (a : list Post.t) :
  heap w !! Full.posts (this w) = Some a ->
  let w' := Full.run events w in
  Full.posts (this w') = Full.posts (this w) /\
  heap w' !! Full.posts (this w') = Some a /\
  (forall r x, heap w !! r = Some x -> heap w' !! r = Some x).
Proof.
  intros Ha w'. destruct (run_frame events w) as [Hp Hh].
  split; [exact Hp|]. split; [|exact Hh].
  subst w'. rewrite Hp. now apply Hh.
Qed.

Lemma stored_posts_never_mutated_witness :
  let events := [Full.SortChange "oldest"; Full.SearchInput "a"; Full.CategoryChange "tech"] in
  let w' := Full.run (host := Sample.host) events Data.full in
  Full.posts (this w') = Full.posts (this Data.full) /\
  heap w' !! Full.posts (this w') = Some Data.posts /\
  (forall r x, heap Data.full !! r = Some x -> heap w' !! r = Some x).
Proof.
  exact (stored_posts_never_mutated (host := Sample.host) Data.full
           [Full.SortChange "oldest"; Full.SearchInput "a"; Full.CategoryChange "tech"]
           Data.posts eq_refl).
Defined.

(** X9.  What each listener renders from: a filter, a search and a sort put
    their result in a newly allocated array (the sort works on a copy);
    selecting "all" allocates nothing and renders the stored array itself,
    which rendering only reads. *)
Lemma handle_allocation {host : Host} (w : World Full.State) (e : Full.Event)
    (a : list Post.t) :
  heap w !! Full.posts (this w) = Some a ->
  let w' := exec (Full.handle e) w in
  if match e with Full.CategoryChange value => String.eqb value "all" | _ => false end
  then heap w' = heap w
  else heap w !! fresh (dom (heap w)) = None /\
       heap w' !! fresh (dom (heap w)) = Some (Full.step_alone e a).
Proof.
  intros Ha. destruct w as [s h d c rq]. simpl in *.
  assert (Hnone : h !! fresh (dom h) = None)
    by (apply not_elem_of_dom; apply is_fresh).
  destruct e as [value|value|value]; cbn [Full.handle Full.step_alone].
  - unfold Full.categorySelect_onchange, Full.filterByCategory,
      Full.set_currentFilter, Full.renderPosts. run_monad.
    destruct (String.eqb value "all"); simpl; destruct (blog_posts d); simpl;
      try reflexivity;
      (split; [exact Hnone|]);
      now rewrite lookup_insert_eq, (lookup_total_Some _ _ _ Ha), Array_filter_eq.
  - unfold Full.searchInput_oninput, Full.renderPosts. run_monad.
    destruct (blog_posts d); simpl; (split; [exact Hnone|]);
      now rewrite lookup_insert_eq, (lookup_total_Some _ _ _ Ha), Array_filter_eq.
  - unfold Full.sortSelect_onchange, Full.sortPosts, Full.set_sortOrder,
      Full.renderPosts. run_monad.
    destruct (blog_posts d); simpl; (split; [exact Hnone|]);
      now rewrite lookup_insert_eq, lookup_total_alloc_new, (lookup_total_Some _ _ _ Ha).
Qed.

(** ** The simple manager: search and detail view *)

Section SimpleFacts.
Context {host : Host}.
Implicit Types (w : World Simple.State) (a : list Post.t).

Lemma filter_all {A} (f : A -> bool) (l : list A) :
  (forall x, f x = true) -> List.filter f l = l.
Proof.
  intros Hf. induction l as [|x l IH]; simpl; [reflexivity|].
  now rewrite Hf, IH.
Qed.

(** The two managers use the same search callback. *)
Lemma matches_same (term : string) (post : Post.t) :
  Simple.matches term post = Full.matches term post.
Proof. reflexivity. Qed.

Lemma matches_spec (term : string) (post : Post.t) :
  Full.matches term post = true <->
  substring_of term (toLowerCase (Post.title post)) \/
  substring_of term (toLowerCase (Post.body post)).
Proof. unfold Full.matches. now rewrite orb_true_iff, !includes_spec. Qed.

(** What the search listener of the simple manager shows. *)
Lemma simple_search_exec w (value : string) a html :
  heap w !! Simple.posts (this w) = Some a ->
  blog_posts (document w) = Some html ->
  let shown := List.filter (Simple.matches (toLowerCase value)) a in
  blog_posts (document (exec (Simple.searchInput_oninput value) w))
  = Some (if (length shown =? 0)%nat then Simple.no_results else Simple.listing shown).
Proof.
  intros Ha Hc. destruct w as [s h d c rq]. simpl in *.
  unfold Simple.searchInput_oninput, Simple.filterAndRenderPosts,
    Simple.renderFilteredPosts, Simple.renderPosts. run_monad.
  rewrite Hc. simpl.
  rewrite lookup_total_alloc_new, (lookup_total_Some _ _ _ Ha), Array_filter_eq.
  destruct (length _ =? 0)%nat; simpl; [reflexivity|].
  rewrite Hc. simpl. now rewrite lookup_total_alloc_new.
Qed.

(** A filter that leaves nothing gets the no-results panel. *)
Lemma renderFilteredPosts_empty w r html :
  heap w !! r = Some [] ->
  blog_posts (document w) = Some html ->
  blog_posts (document (exec (Simple.renderFilteredPosts r) w)) = Some Simple.no_results.
Proof.
  intros Hr Hc. unfold Simple.renderFilteredPosts. run_monad. rewrite Hc. simpl.
  now rewrite (lookup_total_Some _ _ _ Hr).
Qed.

Lemma no_results_nonempty : Simple.no_results <> EmptyString.
Proof. discriminate. Qed.

(** [renderPosts] of the simple manager writes the articles and nothing
    else: for no posts, the empty string. *)
Lemma simple_renderPosts_empty w r html :
  heap w !! r = Some [] ->
  blog_posts (document w) = Some html ->
  blog_posts (document (exec (Simple.renderPosts r) w)) = Some EmptyString.
Proof.
  intros Hr Hc. unfold Simple.renderPosts. run_monad. rewrite Hc. simpl.
  now rewrite (lookup_total_Some _ _ _ Hr).
Qed.

(** [renderPostsDetail] throws before it touches the page. *)
Lemma renderPostsDetail_throws w (post : Post.t) (comments : list Comment.t) :
  Simple.renderPostsDetail post comments w =
  (Js.Throw (Js.TypeError "Cannot read properties of undefined (reading 'createElement')"), w).
Proof. destruct w. reflexivity. Qed.

(** X22.  [showPostDetail] never changes the document and always
    completes normally, whatever the post id, the store and the answer of
    the comment service: the detail modal cannot appear. *)
Lemma showPostDetail_document_unchanged w (postId : Z)
    (outcome : FetchOutcome (list Comment.t)) :
  document (exec (Simple.showPostDetail postId outcome) w) = document w /\
  outcome_of (Simple.showPostDetail postId outcome) w = Js.Ok tt.
Proof.
  destruct w as [s h d c rq].
  unfold Simple.showPostDetail, Simple.renderPostsDetail. run_monad.
  destruct (Js.Array_find _ _); simpl; [|now split].
  destruct outcome as [e | ok [e | data]]; simpl; now split.
Qed.

Lemma Array_find_none {A} (f : A -> bool) (l : list A) :
  (forall x, In x l -> f x = false) -> Js.Array_find f l = None.
Proof.
  induction l as [|x l IH]; intros H; simpl; [reflexivity|].
  rewrite (H x (or_introl eq_refl)). apply IH. intros y Hy. apply H. now right.
Qed.

End SimpleFacts.

(** ** The search *)

(** C5.  In both managers the search shows a post exactly when it is a
    stored post and the lower-cased term is a substring of its lower-cased
    title or of its lower-cased body; with the empty term every stored
    post is retained, in order.  (The first manager lists the retained
    posts, or its placeholder when there are none; the simple manager
    lists them, or shows its no-results panel.) *)
Theorem search_exact {host : Host} (wf : World Full.State) (ws : World Simple.State)
    (value : string) (a : list Post.t) (htmlf htmls : string) :
  heap wf !! Full.posts (this wf) = Some a ->
  blog_posts (document wf) = Some htmlf ->
  heap ws !! Simple.posts (this ws) = Some a ->
  blog_posts (document ws) = Some htmls ->
  let term := toLowerCase value in
  let shown := List.filter (Full.matches term) a in
  blog_posts (document (exec (Full.searchInput_oninput value) wf))
    = Some (Full.listing shown) /\
  blog_posts (document (exec (Simple.searchInput_oninput value) ws))
    = Some (if (length shown =? 0)%nat then Simple.no_results else Simple.listing shown) /\
  (forall post,
     In post shown <->
     In post a /\
     (substring_of term (toLowerCase (Post.title post)) \/
      substring_of term (toLowerCase (Post.body post)))) /\
  (value = EmptyString -> shown = a).
Proof.
  intros Hf Hcf Hs Hcs term shown. split; [|split; [|split]].
  - now destruct (handle_exec wf (Full.SearchInput value) a htmlf Hf Hcf) as [Hv _].
  - apply (simple_search_exec ws value a htmls Hs Hcs).
  - intros post. subst shown. now rewrite filter_In, matches_spec.
  - intros ->. subst shown term. rewrite toLowerCase_empty.
    apply filter_all. intros post. unfold Full.matches.
    now rewrite includes_empty.
Qed.

Lemma search_exact_witness :
  let shown := [Data.alpha; Data.gamma] in
  blog_posts (document (exec (Full.searchInput_oninput (host := Sample.host) "ALPHA") Data.full))
    = Some (Full.listing (host := Sample.host) shown) /\
  blog_posts (document (exec (Simple.searchInput_oninput (host := Sample.host) "ALPHA") Data.simple))
    = Some (Simple.listing (host := Sample.host) shown) /\
  (forall post,
     In post shown <->
     In post Data.posts /\
     (substring_of "alpha" (Sample.toLowerCase (Post.title post)) \/
      substring_of "alpha" (Sample.toLowerCase (Post.body post)))) /\
  ("ALPHA" = EmptyString -> shown = Data.posts).
Proof.
  exact (search_exact (host := Sample.host) Data.full Data.simple "ALPHA" Data.posts
           EmptyString EmptyString eq_refl eq_refl eq_refl eq_refl).
Defined.

Example search_nothing_found :
  blog_posts (document (exec (Simple.searchInput_oninput (host := Sample.host) "zzz") Data.simple))
  = Some Simple.no_results.
Proof. reflexivity. Qed.

(** ** The detail view *)

(** C8.  For a post id that no stored post has, [showPostDetail] reports
    the error on the console and changes nothing else: no request for
    comments is issued, nothing is inserted into the document, and the
    detail view, if it was closed, stays closed throughout. *)
Theorem showPostDetail_unknown_post (w : World Simple.State)
    (postId : Z) (outcome : FetchOutcome (list Comment.t)) (a : list Post.t) :
  heap w !! Simple.posts (this w) = Some a ->
  (forall post, In post a -> Post.id post <> postId) ->
  let w' := exec (Simple.showPostDetail postId outcome) w in
  outcome_of (Simple.showPostDetail postId outcome) w = Js.Ok tt /\
  console w' = (console w ++ [("詳細表示エラー", Js.Error "投稿が見つかりません")])%list /\
  document w' = document w /\
  requests w' = requests w /\
  heap w' = heap w /\
  this w' = this w /\
  (Simple.modal_inserted w = false ->
   Simple.phases postId outcome w = [Simple.Closed; Simple.Closed]).
Proof.
  intros Ha Hid w'.
  assert (Hfind : Js.Array_find (fun p => (Post.id p =? postId)%Z) a = None).
  { apply Array_find_none. intros p Hp. apply Z.eqb_neq. now apply Hid. }
  assert (Hw : w' = mkWorld (this w) (heap w) (document w)
                      (console w ++ [("詳細表示エラー", Js.Error "投稿が見つかりません")])%list
                      (requests w)).
  { subst w'. destruct w as [s h d c rq]. simpl in *.
    unfold Simple.showPostDetail. run_monad.
    rewrite (lookup_total_Some _ _ _ Ha), Hfind. reflexivity. }
  split.
  - destruct w as [s h d c rq]. simpl in *.
    unfold Simple.showPostDetail. run_monad.
    rewrite (lookup_total_Some _ _ _ Ha), Hfind. reflexivity.
  - rewrite Hw. simpl. repeat split.
    intros Hm. unfold Simple.phases. fold w'. rewrite Hw. simpl.
    unfold Simple.modal_inserted in *. simpl. rewrite Hm, Nat.ltb_irrefl. reflexivity.
Qed.

Lemma showPostDetail_unknown_post_witness :
  let outcome : FetchOutcome (list Comment.t) := Response true (JsonValue [Data.comment]) in
  let w' := exec (Simple.showPostDetail 7 outcome) Data.simple in
  outcome_of (Simple.showPostDetail 7 outcome) Data.simple = Js.Ok tt /\
  console w' = (console Data.simple ++ [("詳細表示エラー", Js.Error "投稿が見つかりません")])%list /\
  document w' = document Data.simple /\
  requests w' = requests Data.simple /\
  heap w' = heap Data.simple /\
  this w' = this Data.simple /\
  (Simple.modal_inserted Data.simple = false ->
   Simple.phases 7 outcome Data.simple = [Simple.Closed; Simple.Closed]).
Proof.
  apply (showPostDetail_unknown_post Data.simple 7
           (Response true (JsonValue [Data.comment])) Data.posts).
  - reflexivity.
  - intros post Hin. simpl in Hin.
    destruct Hin as [<- | [<- | [<- | []]]]; simpl; lia.
Defined.

(** C2.  The detail-view scenario, run on the code: post 1 is in the
    store and the comment service answers with the one comment.  The post
    is found and the request is issued, so the view is loading; then
    [renderPostsDetail] reads [this.document], which the manager does not
    have, and throws before any element is created.  The error is logged
    and the document is left as it was: the view returns to closed and no
    modal is shown. *)
Lemma showPostDetail_scenario_no_modal :
  let outcome : FetchOutcome (list Comment.t) := Response true (JsonValue [Data.comment]) in
  let w' := exec (Simple.showPostDetail 1 outcome) Data.simple in
  Js.Array_find (fun p => (Post.id p =? 1)%Z) Data.posts = Some Data.alpha /\
  requests w' = [Simple.comments_url 1] /\
  body_children (document w') = [] /\
  console w' =
    [("詳細表示エラー",
      Js.TypeError "Cannot read properties of undefined (reading 'createElement')")] /\
  Simple.phases 1 outcome Data.simple
  = [Simple.Closed; Simple.Loading; Simple.Closed].
Proof. repeat split. Qed.

(** ** Rendering an empty collection *)

(** The first manager shows its placeholder for an empty array. *)
Lemma renderPosts_empty_placeholder {host : Host} (w : World Full.State) (r : ref)
    (html : string) :
  heap w !! r = Some [] ->
  blog_posts (document w) = Some html ->
  blog_posts (document (exec (Full.renderPosts r) w)) = Some Full.placeholder.
Proof.
  intros Hr Hc. unfold exec. now rewrite (renderPosts_exec w r [] html Hr Hc).
Qed.

(** C7.  The simple manager, started on a page whose data source holds
    no posts: [init] stores the empty array, [renderPosts] joins no
    articles and assigns the empty string to the container, and the search
    box is added.  Nothing throws, so no message replaces it: the
    container is left empty. *)
Lemma init_empty_collection_empty_container :
  let outcome : FetchOutcome PostsDocument := Response true (JsonValue {| doc_posts := [] |}) in
  let w' := exec (Simple.init (host := Sample.host) outcome) Data.simple_new in
  outcome_of (Simple.init (host := Sample.host) outcome) Data.simple_new = Js.Ok tt /\
  heap w' !! Simple.posts (this w') = Some [] /\
  blog_posts (document w') = Some EmptyString /\
  console w' = [].
Proof. repeat split. Qed.

(** ** The built-ins on small inputs *)

Example includes_inside : Js.includes "hello" "ell" = true.
Proof. reflexivity. Qed.

Example includes_longer : Js.includes "abc" "abcd" = false.
Proof. reflexivity. Qed.

Example includes_case : Js.includes "Alpha" "alpha" = false.
Proof. reflexivity. Qed.

Example filter_keeps_order : Js.Array_filter Z.even [4; 1; 2; 3; 6]%Z = [4; 2; 6]%Z.
Proof. reflexivity. Qed.

Example find_first : Js.Array_find Z.even [1; 4; 6]%Z = Some 4%Z.
Proof. reflexivity. Qed.

Example sort_is_stable :
  Js.Array_sort (fun x y => fst x - fst y)%Z [(2, "a"); (1, "b"); (2, "c"); (1, "d")]%Z
  = [(1, "b"); (1, "d"); (2, "a"); (2, "c")]%Z.
Proof. reflexivity. Qed.

Example listing_of_nothing : Full.listing (host := Sample.host) [] = "<p>投稿がありません。</p>".
Proof. reflexivity. Qed.

Example one_comment_block :
  Simple.renderComments [Data.comment]
  = Js.nl +:+
    "      <div class=" +:+ Js.q +:+ "comment" +:+ Js.q +:+ ">" +:+ Js.nl +:+
    "        <h4>A</h4>" +:+ Js.nl +:+
    "        <p>B</p>" +:+ Js.nl +:+
    "        <small>c@d.com</small>" +:+ Js.nl +:+
    "      </div>" +:+ Js.nl +:+
    "    ".
Proof. reflexivity. Qed.

Example sample_getTime : Sample.Date_getTime "2024-01-15" = 1705276800000%Z.
Proof. reflexivity. Qed.

Example sample_getTime_epoch : Sample.Date_getTime "1970-01-01" = 0%Z.
Proof. reflexivity. Qed.

Example sample_date : Sample.toLocaleDateString "2024-01-05" = "2024/1/5".
Proof. reflexivity. Qed.

Example sample_lower : Sample.toLowerCase "Hello, World" = "hello, world".
Proof. reflexivity. Qed.

(** ** Sets of strings *)

Section SetFacts.

Lemma Set_has_In (s : list string) (x : string) : Js.Set_has s x = true <-> In x s.
Proof.
  unfold Js.Set_has. rewrite existsb_exists. split.
  - intros [y [Hy E]]. apply String.eqb_eq in E. now subst.
  - intros H. exists x. split; [exact H | apply String.eqb_refl].
Qed.

Lemma Set_add_spec (acc : list string) (y : string) :
  List.NoDup acc ->
  List.NoDup (Js.Set_add acc y) /\
  forall x, In x (Js.Set_add acc y) <-> In x acc \/ x = y.
Proof.
  intros Hnd. unfold Js.Set_add. destruct (Js.Set_has acc y) eqn:E.
  - apply Set_has_In in E. split; [exact Hnd|]. intros x. split; [tauto|].
    intros [H | ->]; assumption.
  - assert (Hy : ~ In y acc).
    { intros H. apply Set_has_In in H. congruence. }
    split.
    + apply List.NoDup_app; [exact Hnd | repeat constructor; intros [] |].
      intros x Hx [<- | []]. contradiction.
    + intros x. rewrite in_app_iff. simpl. intuition.
Qed.

Lemma Set_fold_spec (l acc : list string) :
  List.NoDup acc ->
  List.NoDup (fold_left Js.Set_add l acc) /\
  (forall x, In x (fold_left Js.Set_add l acc) <-> In x acc \/ In x l).
Proof.
  revert acc. induction l as [|y l IH]; intros acc Hnd; simpl.
  - split; [exact Hnd | intros x; tauto].
  - destruct (Set_add_spec acc y Hnd) as [Hnd' Hin].
    destruct (IH _ Hnd') as [IH1 IH2].
    split; [exact IH1|]. intros x. rewrite IH2, Hin. intuition (subst; auto).
Qed.

(** [new Set(l)] holds each element of [l] once. *)
Lemma Set_from_spec (l : list string) :
  List.NoDup (Js.Set_from l) /\ forall x, In x (Js.Set_from l) <-> In x l.
Proof.
  destruct (Set_fold_spec l [] (List.NoDup_nil _)) as [H1 H2].
  split; [exact H1|]. intros x. rewrite (H2 x). simpl. tauto.
Qed.

End SetFacts.

(** ** Start-up and listing of the first manager *)

Section FullMore.
Context {host : Host}.
Implicit Types (w : World Full.State) (a : list Post.t).

Lemma initializeCategories_exec w a :
  heap w !! Full.posts (this w) = Some a ->
  exec Full.initializeCategories w =
  mkWorld {| Full.posts := Full.posts (this w);
             Full.categories := Js.Set_from (map Post.category a);
             Full.currentFilter := Full.currentFilter (this w);
             Full.sortOrder := Full.sortOrder (this w) |}
          (heap w) (document w) (console w) (requests w).
Proof.
  intros Ha. destruct w as [s h d c rq]. simpl in *.
  unfold Full.initializeCategories, Full.setupCategoryFilter, Full.set_categories.
  run_monad. now rewrite (lookup_total_Some _ _ _ Ha).
Qed.

Lemma categories_of_posts a (c : string) :
  In c (Js.Set_from (map Post.category a)) <->
  exists post, In post a /\ Post.category post = c.
Proof.
  destruct (Set_from_spec (map Post.category a)) as [_ Hin].
  rewrite Hin, in_map_iff. split; intros [p [H1 H2]]; exists p; tauto.
Qed.

(** X1.  After [initializeCategories] the state lists every category
    that some stored post has, each once, and nothing else; the stored
    posts and the page are as before. *)
Theorem initializeCategories_distinct w a :
  heap w !! Full.posts (this w) = Some a ->
  let w' := exec Full.initializeCategories w in
  List.NoDup (Full.categories (this w')) /\
  (forall c, In c (Full.categories (this w')) <->
             exists post, In post a /\ Post.category post = c) /\
  Full.posts (this w') = Full.posts (this w) /\
  heap w' = heap w /\
  document w' = document w.
Proof.
  intros Ha w'. subst w'. rewrite (initializeCategories_exec w a Ha). simpl.
  split; [apply Set_from_spec|]. split; [apply categories_of_posts | auto].
Qed.

Lemma join_articles_cons (post : Post.t) a :
  exists rest,
    Js.Array_join (map Full.article (post :: a)) = String (ascii_of_nat 10) rest.
Proof.
  destruct a as [|post' a]; cbn [map Js.Array_join String.concat];
    unfold Full.article; rewrite append_cons; eauto.
Qed.

Lemma listing_cons_not_placeholder (post : Post.t) a :
  Full.listing (post :: a) <> Full.placeholder.
Proof.
  intros H. unfold Full.listing in H. destruct (join_articles_cons post a) as [rest E].
  rewrite E in H. discriminate H.
Qed.

(** X3.  The listing is the "no posts" placeholder exactly when there
    is no post to list. *)
Theorem listing_placeholder_iff a : Full.listing a = Full.placeholder <-> a = [].
Proof.
  split; [|intros ->; reflexivity].
  destruct a as [|post a]; [reflexivity|]. intros H.
  now apply listing_cons_not_placeholder in H.
Qed.

(** X2.  Every category [initializeCategories] offers has something to
    show: selecting it lists at least one post, never the placeholder. *)
Theorem offered_category_lists_posts w a (html : string) (c : string) :
  heap w !! Full.posts (this w) = Some a ->
  blog_posts (document w) = Some html ->
  let w1 := exec Full.initializeCategories w in
  In c (Full.categories (this w1)) ->
  let shown := Full.step_alone (Full.CategoryChange c) a in
  shown <> [] /\
  blog_posts (document (exec (Full.filterByCategory c) w1)) = Some (Full.listing shown) /\
  Full.listing shown <> Full.placeholder.
Proof.
  intros Ha Hc w1 Hin shown. subst w1.
  rewrite (initializeCategories_exec w a Ha) in *. simpl in Hin.
  apply categories_of_posts in Hin as [post [Hpost Hcatp]].
  assert (Hne : shown <> []).
  { subst shown. cbn [Full.step_alone]. destruct (String.eqb c "all").
    - intros ->. exact Hpost.
    - intros E. assert (Hin : In post (List.filter (fun p => String.eqb (Post.category p) c) a)).
      { apply filter_In. split; [exact Hpost|]. now apply String.eqb_eq. }
      rewrite E in Hin. exact Hin. }
  split; [exact Hne|]. split.
  - match goal with |- context [exec _ ?w1] =>
      now destruct (handle_exec w1 (Full.CategoryChange c) a html Ha Hc) as [Hv _] end.
  - destruct shown as [|p l]; [congruence | apply listing_cons_not_placeholder].
Qed.

Lemma handle_no_container w (e : Full.Event) :
  blog_posts (document w) = None ->
  document (exec (Full.handle e) w) = document w.
Proof.
  intros Hc. destruct w as [s h d c rq]. simpl in Hc.
  destruct e as [value|value|value]; cbn [Full.handle];
    unfold Full.categorySelect_onchange, Full.filterByCategory,
      Full.set_currentFilter, Full.searchInput_oninput,
      Full.sortSelect_onchange, Full.sortPosts, Full.set_sortOrder,
      Full.renderPosts; run_monad;
    try destruct (String.eqb value "all"); simpl; rewrite Hc; reflexivity.
Qed.

(** X4.  On a page without the [.blog-posts] container, no sequence of
    category changes, searches and sorts changes the document. *)
Theorem no_container_page_untouched w (events : list Full.Event) :
  blog_posts (document w) = None ->
  document (Full.run events w) = document w.
Proof.
  revert w. induction events as [|e es IH]; intros w Hc; [reflexivity|].
  cbn [Full.run fold_left]. fold (Full.run es (exec (Full.handle e) w)).
  pose proof (handle_no_container w e Hc) as Hd.
  rewrite IH; [exact Hd | now rewrite Hd].
Qed.

(** X5.  [init] always completes normally.  It stores the posts of
    the document, or the one fallback post when the fetch fails; the
    categories are those of the stored posts; the container, if the page
    has one, lists the stored posts; the sort select and the search
    input are put in front of [#blog] in that order, if the page has it,
    and the category select is not inserted anywhere; arrays that
    existed before are untouched. *)
Theorem init_loads_and_lists w (outcome : FetchOutcome PostsDocument) :
  let stored := loaded Full.fallback_post outcome in
  let w' := exec (Full.init outcome) w in
  outcome_of (Full.init outcome) w = Js.Ok tt /\
  heap w' !! Full.posts (this w') = Some stored /\
  Full.categories (this w') = Js.Set_from (map Post.category stored) /\
  blog_posts (document w') =
    match blog_posts (document w) with
    | Some _ => Some (Full.listing stored)
    | None => None
    end /\
  blog_section (document w') =
    match blog_section (document w) with
    | Some children => Some (Full.sort_select :: Full.search_input :: children)
    | None => None
    end /\
  body_children (document w') = body_children (document w) /\
  (forall r x, heap w !! r = Some x -> heap w' !! r = Some x).
Proof.
  destruct w as [s h [bp bs bc] c rq].
  assert (Hold : forall x r y, h !! r = Some y -> <[fresh (dom h) := x]> h !! r = Some y)
    by (intros; now apply lookup_alloc_old).
  destruct outcome as [e | [|] [e | data]];
    unfold Full.init, Full.fetchPosts, Full.set_posts, Full.initializeCategories,
      Full.setupCategoryFilter, Full.set_categories, Full.setupUI,
      Full.setupSearchFeature, Full.setupSortingFeature, Full.insert_first,
      Full.renderPosts_default, Full.renderPosts; run_monad;
    rewrite ?lookup_total_insert_eq;
    destruct bs as [children|]; simpl; destruct bp as [html|]; simpl;
    rewrite ?lookup_total_insert_eq, ?lookup_insert_eq; repeat split; auto.
Qed.

Lemma substring_of_trans (t1 t2 s : string) :
  substring_of t1 t2 -> substring_of t2 s -> substring_of t1 s.
Proof.
  intros (a1 & b1 & ->) (a2 & b2 & ->). exists (a2 +:+ a1), (b1 +:+ b2).
  assert (Hassoc : forall x y z : string, (x +:+ y) +:+ z = x +:+ (y +:+ z)).
  { intros x y z. induction x as [|ch x IH]; [reflexivity|].
    rewrite !append_cons. now rewrite IH. }
  now rewrite !Hassoc.
Qed.

Lemma filter_narrow {A} (f g : A -> bool) (l : list A) :
  (forall x, g x = true -> f x = true) ->
  List.filter g (List.filter f l) = List.filter g l.
Proof.
  intros H. induction l as [|x l IH]; [reflexivity|]. simpl.
  destruct (g x) eqn:Eg.
  - rewrite (H x Eg). simpl. now rewrite Eg, IH.
  - destruct (f x); simpl; [rewrite Eg|]; exact IH.
Qed.

(** X6.  A longer search narrows: when the lower-cased first term is a
    substring of the lower-cased second, what the second search lists is
    what it would retain from the first search's result, so every post it
    shows was shown by the first. *)
Theorem search_narrows w (v1 v2 : string) a (html : string) :
  heap w !! Full.posts (this w) = Some a ->
  blog_posts (document w) = Some html ->
  substring_of (toLowerCase v1) (toLowerCase v2) ->
  let shown1 := List.filter (Full.matches (toLowerCase v1)) a in
  let shown2 := List.filter (Full.matches (toLowerCase v2)) a in
  blog_posts (document (exec (Full.searchInput_oninput v1) w)) = Some (Full.listing shown1) /\
  blog_posts (document (exec (Full.searchInput_oninput v2) w)) = Some (Full.listing shown2) /\
  shown2 = List.filter (Full.matches (toLowerCase v2)) shown1 /\
  (forall post, In post shown2 -> In post shown1).
Proof.
  intros Ha Hc Hsub shown1 shown2.
  assert (Himp : forall post, Full.matches (toLowerCase v2) post = true ->
                              Full.matches (toLowerCase v1) post = true).
  { intros post. rewrite !matches_spec.
    intros [H | H]; [left | right]; eapply substring_of_trans; eauto. }
  split; [now destruct (handle_exec w (Full.SearchInput v1) a html Ha Hc)|].
  split; [now destruct (handle_exec w (Full.SearchInput v2) a html Ha Hc)|].
  split.
  - subst shown1 shown2. symmetry. now apply filter_narrow.
  - intros post. subst shown1 shown2. rewrite !filter_In. intros [H1 H2]. auto.
Qed.

End FullMore.

(** ** The two sort orders *)

Section SortMore.

Lemma StronglySorted_app {A} (R : A -> A -> Prop) (l1 l2 : list A) :
  StronglySorted R l1 -> StronglySorted R l2 ->
  (forall x y, In x l1 -> In y l2 -> R x y) ->
  StronglySorted R (l1 ++ l2).
Proof.
  intros H1 H2 H. induction H1 as [|x l1 Hl1 IH Hx]; simpl; [exact H2|].
  constructor.
  - apply IH. intros u v Hu Hv. apply H; [now right | exact Hv].
  - apply List.Forall_forall. intros y Hy. apply in_app_iff in Hy as [Hy | Hy].
    + rewrite List.Forall_forall in Hx. now apply Hx.
    + apply H; [now left | exact Hy].
Qed.

Lemma StronglySorted_rev {A} (R : A -> A -> Prop) (l : list A) :
  StronglySorted R l -> StronglySorted (fun x y => R y x) (rev l).
Proof.
  intros H. induction H as [|x l Hl IH Hx]; simpl; [constructor|].
  apply StronglySorted_app; [exact IH | repeat constructor |].
  intros u v Hu [<- | []]. apply in_rev in Hu.
  rewrite List.Forall_forall in Hx. now apply Hx.
Qed.

Lemma filter_unique_key {A} (key : A -> Z) (t : Z) (l : list A) :
  List.NoDup (map key l) ->
  (length (List.filter (fun p => (key p =? t)%Z) l) <= 1)%nat.
Proof.
  induction l as [|x l IH]; simpl; [lia|]. intros Hnd.
  apply List.NoDup_cons_iff in Hnd as [Hx Hnd]. specialize (IH Hnd).
  destruct (key x =? t)%Z eqn:E; [|exact IH]. apply Z.eqb_eq in E.
  assert (Hnil : List.filter (fun p => (key p =? t)%Z) l = []).
  { destruct (List.filter _ l) as [|y r] eqn:F; [reflexivity|]. exfalso.
    assert (Hy : In y (List.filter (fun p => (key p =? t)%Z) l)) by (rewrite F; now left).
    apply filter_In in Hy as [Hy Ey]. apply Z.eqb_eq in Ey.
    apply Hx. rewrite E, <- Ey. now apply in_map. }
  rewrite Hnil. simpl. lia.
Qed.

Lemma rev_short {A} (l : list A) : (length l <= 1)%nat -> rev l = l.
Proof. destruct l as [|x [|y l]]; simpl; [reflexivity | reflexivity | lia]. Qed.

(** X8.  When no two stored posts share a timestamp, the "oldest"
    order is the "newest" order reversed. *)
Theorem oldest_reverses_newest {host : Host} (a : list Post.t) :
  List.NoDup (map (fun post => Date_getTime (Post.date post)) a) ->
  Js.Array_sort (Full.compareFn "oldest") a
  = rev (Js.Array_sort (Full.compareFn "newest") a).
Proof.
  intros Hnd. symmetry.
  apply (Array_sort_determined (fun post => Date_getTime (Post.date post))).
  - intros x y. unfold Full.compareFn. simpl. lia.
  - apply StronglySorted_Sorted.
    apply (StronglySorted_rev (fun x y => (Full.compareFn "oldest" y x <= 0)%Z)).
    apply Sorted_StronglySorted.
    + intros x y z. unfold Full.compareFn. simpl. lia.
    + eapply Sorted_impl; [|apply (Array_sort_sorted (Full.compareFn "newest"))].
      * intros x y. unfold Full.compareFn. simpl. lia.
      * intros x y. unfold Full.compareFn. simpl. lia.
  - intros t. rewrite filter_rev.
    rewrite (Array_sort_stable (fun post => Date_getTime (Post.date post))).
    + apply rev_short. now apply filter_unique_key.
    + intros x y. apply compareFn_equal_dates.
Qed.

(** With two posts of one date the two orders are not mirror images. *)
Example oldest_with_ties :
  Js.Array_sort (Full.compareFn (host := Sample.host) "oldest") Data.posts
  = [Data.gamma; Data.alpha; Data.beta].
Proof. reflexivity. Qed.

End SortMore.

(** ** Start-up, search and detail view of the simple manager *)

Section SimpleMore.
Context {host : Host}.
Implicit Types (w : World Simple.State) (a : list Post.t).

Lemma Array_find_some {A} (f : A -> bool) (l : list A) (x : A) :
  In x l -> f x = true -> exists y, Js.Array_find f l = Some y /\ f y = true.
Proof.
  induction l as [|z l IH]; simpl; [tauto|]. intros [-> | Hin] Hx.
  - rewrite Hx. eauto.
  - destruct (f z) eqn:E; [eauto | now apply IH].
Qed.

(** X10.  For an id that a stored post has, [showPostDetail] issues
    exactly one request, to the comment address of that id, logs exactly
    one error whatever the answer is, and leaves the document and the
    arrays as they were. *)
Theorem showPostDetail_known_post w (postId : Z)
    (outcome : FetchOutcome (list Comment.t)) a (post : Post.t) :
  heap w !! Simple.posts (this w) = Some a ->
  In post a ->
  Post.id post = postId ->
  let w' := exec (Simple.showPostDetail postId outcome) w in
  requests w' = (requests w ++ [Simple.comments_url postId])%list /\
  (exists error, console w' = (console w ++ [("詳細表示エラー", error)])%list) /\
  document w' = document w /\
  heap w' = heap w.
Proof.
  intros Ha Hin Hid.
  destruct (Array_find_some (fun p => (Post.id p =? postId)%Z) a post Hin)
    as [found [Hf _]]; [now apply Z.eqb_eq|].
  destruct w as [s h d c rq]. simpl in *.
  unfold Simple.showPostDetail, Simple.renderPostsDetail. run_monad.
  rewrite (lookup_total_Some _ _ _ Ha), Hf. simpl.
  destruct outcome as [e | ok [e | data]]; simpl; repeat split; eauto.
Qed.

(** X11.  On a page that has the container but no [#blog] section,
    [init] of the simple manager ends with the error panel in the
    container, whatever the fetch returned: the posts are stored and
    rendered, then adding the search box throws, and the handler
    overwrites the listing. *)
Theorem simple_init_without_blog_section w (outcome : FetchOutcome PostsDocument)
    (html : string) :
  blog_posts (document w) = Some html ->
  blog_section (document w) = None ->
  let w' := exec (Simple.init outcome) w in
  outcome_of (Simple.init outcome) w = Js.Ok tt /\
  blog_posts (document w') = Some Simple.error_message /\
  heap w' !! Simple.posts (this w') = Some (loaded Simple.fallback_post outcome) /\
  (exists earlier,
     console w' =
     (earlier ++ [("初期化エラー:",
                   Js.TypeError "Cannot read properties of null (reading 'insertBefore')")])%list).
Proof.
  intros Hc Hs. destruct w as [s h [bp bs bc] c rq]. simpl in *. subst bp bs.
  destruct outcome as [e | [|] [e | data]];
    unfold Simple.init, Simple.fetchPosts, Simple.set_posts, Simple.renderPosts_default,
      Simple.renderPosts, Simple.addSearchFeature, Simple.handleError; run_monad;
    rewrite ?lookup_insert_eq; repeat split; eauto.
Qed.

(** X12.  On a page with the container and the [#blog] section, [init]
    of the simple manager completes normally, stores the posts of the
    document (or its fallback post when the fetch fails), writes their
    articles to the container and puts the search box in front of
    [#blog]. *)
Theorem simple_init_lists w (outcome : FetchOutcome PostsDocument)
    (html : string) (children : list Element) :
  blog_posts (document w) = Some html ->
  blog_section (document w) = Some children ->
  let stored := loaded Simple.fallback_post outcome in
  let w' := exec (Simple.init outcome) w in
  outcome_of (Simple.init outcome) w = Js.Ok tt /\
  heap w' !! Simple.posts (this w') = Some stored /\
  blog_posts (document w') = Some (Simple.listing stored) /\
  blog_section (document w') =
    Some ({| tagName := "div"; className := "blog-search";
             innerHTML := Simple.search_box |} :: children) /\
  body_children (document w') = body_children (document w).
Proof.
  intros Hc Hs. destruct w as [s h [bp bs bc] c rq]. simpl in *. subst bp bs.
  destruct outcome as [e | [|] [e | data]];
    unfold Simple.init, Simple.fetchPosts, Simple.set_posts, Simple.renderPosts_default,
      Simple.renderPosts, Simple.addSearchFeature, Simple.handleError; run_monad;
    rewrite ?lookup_total_insert_eq, ?lookup_insert_eq; repeat split; eauto.
Qed.

Lemma simple_listing_cons_not_no_results (post : Post.t) a :
  Simple.listing (post :: a) <> Simple.no_results.
Proof.
  unfold Simple.listing. intros H.
  destruct a as [|post' a]; cbn [map Js.Array_join String.concat] in H;
    unfold Simple.article in H; vm_compute in H; discriminate H.
Qed.

(** X13.  After a search in the simple manager the container holds the
    no-results panel exactly when no stored post matches. *)
Theorem no_results_iff_nothing_matches w (value : string) a (html : string) :
  heap w !! Simple.posts (this w) = Some a ->
  blog_posts (document w) = Some html ->
  let shown := List.filter (Simple.matches (toLowerCase value)) a in
  blog_posts (document (exec (Simple.searchInput_oninput value) w)) = Some Simple.no_results
  <-> shown = [].
Proof.
  intros Ha Hc shown. rewrite (simple_search_exec w value a html Ha Hc). fold shown.
  destruct shown as [|post rest]; simpl; [tauto|].
  split; [|discriminate]. intros H. injection H as H.
  now apply simple_listing_cons_not_no_results in H.
Qed.

End SimpleMore.

(** ** The contact form *)

Section FormFacts.
Variable trim : string -> string.
Implicit Types (p q : Form.Page) (f : Form.Field) (fs : list Form.Field).

Lemma validateField_fst f p :
  fst (ContactForm.validateField trim f p) = true <-> trim (Form.value f) <> EmptyString.
Proof.
  unfold ContactForm.validateField. simpl. rewrite negb_true_iff. apply String.eqb_neq.
Qed.

Lemma validateField_frame f p :
  let p' := snd (ContactForm.validateField trim f p) in
  Form.fields p' = Form.fields p /\ Form.statusDiv p' = Form.statusDiv p /\
  Form.log p' = Form.log p /\ Form.timers p' = Form.timers p.
Proof. now repeat split. Qed.

Lemma every_frame fs p :
  let p' := snd (ContactForm.every_validateField trim fs p) in
  Form.fields p' = Form.fields p /\ Form.statusDiv p' = Form.statusDiv p /\
  Form.log p' = Form.log p /\ Form.timers p' = Form.timers p.
Proof.
  revert p. induction fs as [|f fs IH]; intros p; simpl; [now repeat split|].
  destruct (negb _); simpl; [|now repeat split].
  match goal with |- context [ContactForm.every_validateField trim fs ?q] =>
    exact (IH q) end.
Qed.

Lemma every_verdict fs p :
  fst (ContactForm.every_validateField trim fs p) = true <->
  forall f, In f fs -> trim (Form.value f) <> EmptyString.
Proof.
  revert p. induction fs as [|f fs IH]; intros p; cbn [ContactForm.every_validateField].
  - split; [intros _ f [] | reflexivity].
  - destruct (fst (ContactForm.validateField trim f p)) eqn:E.
    + apply validateField_fst in E. rewrite IH. split.
      * intros H g [<- | Hg]; auto.
      * intros H g Hg. apply H. now right.
    + split; [discriminate|]. intros H. exfalso.
      assert (E' : fst (ContactForm.validateField trim f p) = true)
        by (apply validateField_fst; apply H; now left).
      congruence.
Qed.

Lemma validateForm_verdict_helper p :
  (forall f, In f (Form.fields p) -> Form.required f = true ->
             trim (Form.value f) <> EmptyString) ->
  fst (ContactForm.validateForm trim p) = true.
Proof.
  intros H. unfold ContactForm.validateForm. apply every_verdict.
  intros f Hf. apply filter_In in Hf as [Hf Hr]. now apply H.
Qed.

(** X14.  [validateForm] of the first contact form answers [true]
    exactly when every required control has a value that is not blank. *)
Theorem validateForm_verdict p :
  fst (ContactForm.validateForm trim p) = true <->
  forall f, In f (Form.fields p) -> Form.required f = true ->
            trim (Form.value f) <> EmptyString.
Proof.
  unfold ContactForm.validateForm. rewrite every_verdict. split.
  - intros H f Hf Hr. apply H. apply filter_In. now split.
  - intros H f Hf. apply filter_In in Hf as [Hf Hr]. now apply H.
Qed.

Lemma every_spans fs p q :
  Form.spans p = Form.spans q ->
  fst (ContactForm.every_validateField trim fs p)
  = fst (ContactForm.every_validateField trim fs q) /\
  Form.spans (snd (ContactForm.every_validateField trim fs p))
  = Form.spans (snd (ContactForm.every_validateField trim fs q)).
Proof.
  revert p q. induction fs as [|f fs IH]; intros p q E; simpl; [now split|].
  destruct (negb _); simpl.
  - apply IH. simpl. now rewrite E.
  - now rewrite E.
Qed.

Lemma every_stops fs1 f fs2 p :
  (forall g, In g fs1 -> trim (Form.value g) <> EmptyString) ->
  trim (Form.value f) = EmptyString ->
  ContactForm.every_validateField trim (fs1 ++ f :: fs2) p
  = ContactForm.every_validateField trim (fs1 ++ [f]) p.
Proof.
  revert p. induction fs1 as [|g fs1 IH]; intros p H1 Hf; simpl.
  - now rewrite Hf.
  - destruct (negb _); [|reflexivity]. apply IH; [|exact Hf].
    intros h Hh. apply H1. now right.
Qed.

(** X15.  [validateForm] of the first contact form stops at the first
    required control that is blank: the answer is [false] and the error
    elements end as if the form had no control after that one, so later
    blank controls are not flagged. *)
Theorem validateForm_stops_at_first_blank p (before after : list Form.Field) f :
  Form.fields p = (before ++ f :: after)%list ->
  (forall g, In g before -> Form.required g = true -> trim (Form.value g) <> EmptyString) ->
  Form.required f = true ->
  trim (Form.value f) = EmptyString ->
  let cut := {| Form.fields := (before ++ [f])%list; Form.spans := Form.spans p;
                Form.statusDiv := Form.statusDiv p; Form.log := Form.log p;
                Form.timers := Form.timers p |} in
  fst (ContactForm.validateForm trim p) = false /\
  Form.spans (snd (ContactForm.validateForm trim p))
  = Form.spans (snd (ContactForm.validateForm trim cut)).
Proof.
  intros Hf Hb Hr Hblank cut.
  unfold ContactForm.validateForm. rewrite Hf. cbn [Form.fields cut].
  rewrite !List.filter_app. cbn [List.filter]. rewrite Hr.
  assert (Hb' : forall g, In g (List.filter Form.required before) ->
                          trim (Form.value g) <> EmptyString).
  { intros g Hg. apply filter_In in Hg as [Hg Hrg]. now apply Hb. }
  rewrite (every_stops _ f _ p Hb' Hblank).
  destruct (every_spans (List.filter Form.required before ++ [f]) p cut eq_refl) as [E1 E2].
  split; [|exact E2].
  destruct (fst (ContactForm.every_validateField trim _ p)) eqn:E; [|reflexivity].
  exfalso. pose proof (proj1 (every_verdict _ p) E) as E'. apply (E' f); [|exact Hblank].
  apply in_app_iff. right. now left.
Qed.


(** *** The last version *)

Lemma check_frame (b : bool) f p :
  let p' := snd (ContactFormSimple.check trim b f p) in
  Form.fields p' = Form.fields p /\ Form.statusDiv p' = Form.statusDiv p /\
  Form.log p' = Form.log p /\ Form.timers p' = Form.timers p.
Proof. unfold ContactFormSimple.check. destruct (negb _); now repeat split. Qed.

Lemma forEach_frame fs (b : bool) p :
  let p' := snd (ContactFormSimple.forEach_check trim fs b p) in
  Form.fields p' = Form.fields p /\ Form.statusDiv p' = Form.statusDiv p /\
  Form.log p' = Form.log p /\ Form.timers p' = Form.timers p.
Proof.
  revert b p. induction fs as [|f fs IH]; intros b p; simpl; [now repeat split|].
  destruct (IH (fst (ContactFormSimple.check trim b f p))
               (snd (ContactFormSimple.check trim b f p))) as (H1 & H2 & H3 & H4).
  destruct (check_frame b f p) as (G1 & G2 & G3 & G4).
  repeat split; congruence.
Qed.

Lemma truthy_false (s : string) : Js.truthy s = false <-> s = EmptyString.
Proof. destruct s; simpl; split; congruence. Qed.

Lemma forEach_verdict fs (b : bool) p :
  fst (ContactFormSimple.forEach_check trim fs b p) = true <->
  b = true /\ forall f, In f fs -> trim (Form.value f) <> EmptyString.
Proof.
  revert b p. induction fs as [|f fs IH]; intros b p; cbn [ContactFormSimple.forEach_check].
  - simpl. split; [intros ->; split; [reflexivity | intros f []] | tauto].
  - rewrite IH. unfold ContactFormSimple.check.
    destruct (Js.truthy (trim (Form.value f))) eqn:E; simpl.
    + assert (Hf : trim (Form.value f) <> EmptyString).
      { intros H. apply truthy_false in H. congruence. }
      split; intros [Hb H]; (split; [exact Hb|]).
      * intros g [<- | Hg]; auto.
      * intros g Hg. apply H. now right.
    + apply truthy_false in E. split; [intros [H _]; discriminate|].
      intros [_ H]. exfalso. apply (H f); [now left | exact E].
Qed.

Lemma find_update_span (n m text : string) (shown : bool) (ss : list Form.ErrorSpan) :
  Form.find_span n (Form.update_span m text shown ss) =
  if String.eqb n m
  then option_map
         (fun sp => {| Form.data_error := Form.data_error sp;
                       Form.textContent := text; Form.show := shown |})
         (Form.find_span m ss)
  else Form.find_span n ss.
Proof.
  induction ss as [|sp ss IH]; simpl; [now destruct (String.eqb n m)|].
  destruct (String.eqb (Form.data_error sp) m) eqn:E1; simpl.
  - apply String.eqb_eq in E1.
    destruct (String.eqb n m) eqn:E2.
    + apply String.eqb_eq in E2. subst. now rewrite String.eqb_refl.
    + rewrite E1. rewrite String.eqb_sym, E2. reflexivity.
  - destruct (String.eqb (Form.data_error sp) n) eqn:E3.
    + apply String.eqb_eq in E3. subst n. now rewrite E1.
    + exact IH.
Qed.

Lemma check_find (b : bool) f p (n : string) :
  Form.find_span n (Form.spans (snd (ContactFormSimple.check trim b f p))) =
  if String.eqb n (Form.name f)
  then option_map (Form.verdict_span trim f) (Form.find_span (Form.name f) (Form.spans p))
  else Form.find_span n (Form.spans p).
Proof.
  unfold ContactFormSimple.check, Form.verdict_span.
  destruct (Js.truthy (trim (Form.value f))) eqn:E; simpl; rewrite find_update_span.
  - assert (Hf : String.eqb (trim (Form.value f)) EmptyString = false).
    { apply String.eqb_neq. intros H. apply truthy_false in H. congruence. }
    now rewrite Hf.
  - apply truthy_false in E. now rewrite E.
Qed.

Lemma forEach_find fs (b : bool) p :
  List.NoDup (map Form.name fs) ->
  forall f, In f fs ->
    Form.find_span (Form.name f)
      (Form.spans (snd (ContactFormSimple.forEach_check trim fs b p)))
    = option_map (Form.verdict_span trim f) (Form.find_span (Form.name f) (Form.spans p)).
Proof.
  revert b p. induction fs as [|g fs IH]; intros b p Hnd f Hin; [destruct Hin|].
  cbn [map] in Hnd. apply List.NoDup_cons_iff in Hnd as [Hg Hnd].
  cbn [ContactFormSimple.forEach_check].
  assert (Hother : forall n, ~ In n (map Form.name fs) -> forall b' q,
            Form.find_span n (Form.spans (snd (ContactFormSimple.forEach_check trim fs b' q)))
            = Form.find_span n (Form.spans q)).
  { clear. induction fs as [|h fs IH]; intros n Hn b' q; [reflexivity|].
    cbn [ContactFormSimple.forEach_check]. rewrite IH.
    - rewrite check_find.
      destruct (String.eqb n (Form.name h)) eqn:E; [|reflexivity].
      apply String.eqb_eq in E. exfalso. apply Hn. left. now symmetry.
    - intros H. apply Hn. now right. }
  destruct Hin as [<- | Hin].
  - rewrite (Hother _ Hg). rewrite check_find. now rewrite String.eqb_refl.
  - rewrite (IH _ _ Hnd f Hin). rewrite check_find.
    destruct (String.eqb (Form.name f) (Form.name g)) eqn:E; [|reflexivity].
    apply String.eqb_eq in E. exfalso. apply Hg. rewrite <- E. now apply in_map.
Qed.


(** X16.  [validateForm] of the last contact form visits every required
    control.  When the required controls have distinct names, the error
    element of each one ends with the message and [show] if the control
    is blank, and empty without [show] otherwise; the answer is [true]
    exactly when none is blank. *)
Theorem simple_validateForm_flags_every_field p :
  List.NoDup (map Form.name (List.filter Form.required (Form.fields p))) ->
  let r := ContactFormSimple.validateForm trim p in
  (fst r = true <->
   forall f, In f (Form.fields p) -> Form.required f = true ->
             trim (Form.value f) <> EmptyString) /\
  (forall f, In f (Form.fields p) -> Form.required f = true ->
     Form.find_span (Form.name f) (Form.spans (snd r))
     = option_map (Form.verdict_span trim f) (Form.find_span (Form.name f) (Form.spans p))).
Proof.
  intros Hnd r. subst r. unfold ContactFormSimple.validateForm. split.
  - rewrite forEach_verdict. split.
    + intros [_ H] f Hf Hr. apply H. apply filter_In. now split.
    + intros H. split; [reflexivity|]. intros f Hf.
      apply filter_In in Hf as [Hf Hr]. now apply H.
  - intros f Hf Hr. apply forEach_find; [exact Hnd|]. apply filter_In. now split.
Qed.

Lemma handleSubmit_valid_resets p :
  (forall f, In f (Form.fields p) -> Form.required f = true ->
             trim (Form.value f) <> EmptyString) ->
  Form.fields (ContactForm.handleSubmit trim p) = Form.fields (Form.reset p).
Proof.
  intros Hv. apply validateForm_verdict_helper in Hv.
  unfold ContactForm.handleSubmit. rewrite Hv. simpl.
  unfold ContactForm.validateForm.
  destruct (every_frame (List.filter Form.required (Form.fields p)) p) as (H1 & H2 & H3 & H4).
  unfold ContactForm.showStatus. simpl. rewrite H2.
  destruct (Form.statusDiv p); simpl; now rewrite H1.
Qed.

(** X17.  Submitting the first contact form: when the form is valid the
    data is logged, every control is reset and the status element, if
    there is one, announces success; otherwise the values stay, nothing
    is logged and the status element asks to check the input. *)
Theorem handleSubmit_resets_only_valid_form p :
  let p' := ContactForm.handleSubmit trim p in
  if fst (ContactForm.validateForm trim p)
  then
    Form.fields p' = Form.fields (Form.reset p) /\
    Form.log p' = (Form.log p ++ [Form.LogData "送信データ:" (Form.fromEntries (Form.entries p))])%list /\
    Form.statusDiv p' =
      option_map (fun _ => {| Form.status_text := "送信しました！";
                              Form.status_class := "submission-status success" |})
                 (Form.statusDiv p)
  else
    Form.fields p' = Form.fields p /\
    Form.log p' = Form.log p /\
    Form.statusDiv p' =
      option_map (fun _ => {| Form.status_text := "入力内容を確認してください";
                              Form.status_class := "submission-status error" |})
                 (Form.statusDiv p).
Proof.
  unfold ContactForm.handleSubmit, ContactForm.validateForm.
  destruct (every_frame (List.filter Form.required (Form.fields p)) p) as (H1 & H2 & H3 & H4).
  set (r := ContactForm.every_validateField trim _ p) in *.
  destruct (fst r); simpl; unfold ContactForm.showStatus, Form.entries; simpl;
    rewrite H2; destruct (Form.statusDiv p); simpl; rewrite ?H1, ?H3; auto.
Qed.

(** X18.  On a page without the status element, submitting a valid form
    with the last contact form throws after logging the data and before
    the reset, so the values stay in the form; the first contact form
    resets it. *)
Theorem simple_handleSubmit_without_status_element p :
  Form.statusDiv p = None ->
  (forall f, In f (Form.fields p) -> Form.required f = true ->
             trim (Form.value f) <> EmptyString) ->
  let r := ContactFormSimple.handleSubmit trim p in
  fst r = Js.Throw (Js.TypeError "Cannot set properties of null (setting 'textContent')") /\
  Form.fields (snd r) = Form.fields p /\
  Form.log (snd r) = (Form.log p ++ [Form.LogData "送信データ" (Form.fromEntries (Form.entries p))])%list /\
  Form.fields (ContactForm.handleSubmit trim p) = Form.fields (Form.reset p).
Proof.
  intros Hs Hv r.
  assert (Hr : r = (Js.Throw (Js.TypeError "Cannot set properties of null (setting 'textContent')"),
                    Form.console_log
                      (Form.LogData "送信データ"
                         (Form.fromEntries
                            (Form.entries (snd (ContactFormSimple.validateForm trim p)))))
                      (snd (ContactFormSimple.validateForm trim p)))).
  { subst r. unfold ContactFormSimple.handleSubmit.
    assert (E : fst (ContactFormSimple.validateForm trim p) = true).
    { apply forEach_verdict. split; [reflexivity|]. intros f Hf.
      apply filter_In in Hf as [Hf Hr]. now apply Hv. }
    rewrite E. simpl. unfold ContactFormSimple.showStatus. simpl.
    destruct (forEach_frame (List.filter Form.required (Form.fields p)) true p)
      as (_ & H2 & _).
    unfold ContactFormSimple.validateForm. now rewrite H2, Hs. }
  destruct (forEach_frame (List.filter Form.required (Form.fields p)) true p)
    as (H1 & H2 & H3 & H4).
  fold (ContactFormSimple.validateForm trim p) in H1, H3.
  rewrite Hr. simpl. unfold Form.entries. rewrite H1, H3.
  split; [reflexivity|]. split; [reflexivity|]. split; [reflexivity|].
  exact (handleSubmit_valid_resets p Hv).
Qed.

End FormFacts.

Section FormMore.
Variable trim : string -> string.

(** X19.  Leaving a required control of the first contact form
    validates that control alone: the first error element carrying its
    name shows the verdict, and the error elements of every other name
    are as before. *)
Theorem field_onblur_own_span (f : Form.Field) (p : Form.Page) :
  Form.find_span (Form.name f) (Form.spans (ContactForm.field_onblur trim f p))
  = option_map (Form.verdict_span trim f) (Form.find_span (Form.name f) (Form.spans p)) /\
  (forall n, n <> Form.name f ->
     Form.find_span n (Form.spans (ContactForm.field_onblur trim f p))
     = Form.find_span n (Form.spans p)) /\
  length (Form.spans (ContactForm.field_onblur trim f p)) = length (Form.spans p).
Proof.
  unfold ContactForm.field_onblur, ContactForm.validateField, Form.verdict_span. simpl.
  split; [|split].
  - rewrite find_update_span, String.eqb_refl.
    now destruct (String.eqb (trim (Form.value f)) EmptyString).
  - intros n Hn. rewrite find_update_span.
    apply String.eqb_neq in Hn. now rewrite Hn.
  - generalize (Form.spans p). intros ss.
    induction ss as [|sp ss IH]; simpl; [reflexivity|].
    destruct (String.eqb (Form.data_error sp) (Form.name f)); simpl; congruence.
Qed.

End FormMore.

(** X20.  Each message starts its own three-second timeout, and every
    timeout clears whatever the status element shows.  After two messages
    the first timeout to fire removes the second message, whose own
    timeout is still pending. *)
Theorem stale_timeout_clears_newer_message (p : Form.Page) (st : Form.Status)
    (m1 t1 m2 t2 : string) :
  Form.statusDiv p = Some st ->
  let p2 := ContactForm.showStatus m2 t2 (ContactForm.showStatus m1 t1 p) in
  Form.statusDiv p2 = Some {| Form.status_text := m2;
                              Form.status_class := "submission-status " +:+ t2 |} /\
  Form.timers p2 = S (S (Form.timers p)) /\
  Form.statusDiv (Form.timeout p2) = Some {| Form.status_text := EmptyString;
                                             Form.status_class := "submission-status" |} /\
  Form.timers (Form.timeout p2) = S (Form.timers p).
Proof.
  intros Hs. unfold ContactForm.showStatus, Form.timeout. rewrite Hs. simpl.
  now repeat split.
Qed.

(** ** The mobile menu *)

Section MenuFacts.

Lemma classList_contains_In (classes : list string) (token : string) :
  Js.classList_contains classes token = true <-> In token classes.
Proof.
  unfold Js.classList_contains. rewrite existsb_exists. split.
  - intros [c [Hc E]]. apply String.eqb_eq in E. now subst.
  - intros H. exists token. split; [exact H | apply String.eqb_refl].
Qed.

Lemma classList_toggle_same (classes : list string) (token : string) :
  Js.classList_contains (Js.classList_toggle classes token) token
  = negb (Js.classList_contains classes token).
Proof.
  unfold Js.classList_toggle. destruct (Js.classList_contains classes token) eqn:E; simpl.
  - apply not_true_is_false. rewrite classList_contains_In.
    unfold Js.classList_remove. rewrite filter_In. intros [_ H].
    now rewrite String.eqb_refl in H.
  - apply classList_contains_In, in_app_iff. right. now left.
Qed.

Lemma classList_toggle_other (classes : list string) (token other : string) :
  other <> token ->
  Js.classList_contains (Js.classList_toggle classes token) other
  = Js.classList_contains classes other.
Proof.
  intros Hne. apply eq_true_iff_eq. rewrite !classList_contains_In.
  unfold Js.classList_toggle, Js.classList_remove.
  destruct (Js.classList_contains classes token).
  - rewrite filter_In, negb_true_iff, String.eqb_neq. split; [tauto|].
    intros H. split; [exact H | congruence].
  - rewrite in_app_iff. simpl. split; [|tauto]. intros [H | [H | []]]; [exact H | congruence].
Qed.

(** X21.  However often the hamburger is clicked, the button and the
    navigation stay in step: each carries [active] exactly when it did at
    the start and the number of clicks is even, or it did not and the
    number is odd; no other class of either element is added or
    removed. *)
Theorem menu_stays_in_step (p : MobileMenu.Page) (n : nat) :
  let p' := Nat.iter n MobileMenu.hamburger_onclick p in
  Js.classList_contains (MobileMenu.hamburger p') "active"
  = xorb (Js.classList_contains (MobileMenu.hamburger p) "active") (Nat.odd n) /\
  Js.classList_contains (MobileMenu.nav p') "active"
  = xorb (Js.classList_contains (MobileMenu.nav p) "active") (Nat.odd n) /\
  (forall other, other <> "active" ->
     Js.classList_contains (MobileMenu.hamburger p') other
     = Js.classList_contains (MobileMenu.hamburger p) other /\
     Js.classList_contains (MobileMenu.nav p') other
     = Js.classList_contains (MobileMenu.nav p) other).
Proof.
  induction n as [|n IH].
  - simpl. rewrite !xorb_false_r. now repeat split.
  - destruct IH as (Hh & Hn & Ho).
    change (Nat.iter (S n) MobileMenu.hamburger_onclick p)
      with (MobileMenu.hamburger_onclick (Nat.iter n MobileMenu.hamburger_onclick p)).
    set (pn := Nat.iter n MobileMenu.hamburger_onclick p) in *.
    unfold MobileMenu.hamburger_onclick. simpl.
    rewrite !classList_toggle_same, Hh, Hn, Nat.odd_succ, <- Nat.negb_odd.
    split; [apply negb_xorb_r|]. split; [apply negb_xorb_r|].
    intros other Hne. rewrite !classList_toggle_other by exact Hne. now apply Ho.
Qed.

End MenuFacts.

(** ** The properties above on the sample data *)

Lemma initializeCategories_distinct_witness :
  let w' := exec (Full.initializeCategories) Data.full in
  List.NoDup (Full.categories (this w')) /\
  (forall c, In c (Full.categories (this w')) <->
             exists post, In post Data.posts /\ Post.category post = c) /\
  Full.posts (this w') = Full.posts (this Data.full) /\
  heap w' = heap Data.full /\
  document w' = document Data.full.
Proof. exact (initializeCategories_distinct Data.full Data.posts eq_refl). Defined.

Lemma offered_category_lists_posts_witness :
  let w1 := exec Full.initializeCategories Data.full in
  let shown := Full.step_alone (host := Sample.host) (Full.CategoryChange "life") Data.posts in
  shown <> [] /\
  blog_posts (document (exec (Full.filterByCategory (host := Sample.host) "life") w1))
    = Some (Full.listing (host := Sample.host) shown) /\
  Full.listing (host := Sample.host) shown <> Full.placeholder.
Proof.
  apply (offered_category_lists_posts (host := Sample.host) Data.full Data.posts
           EmptyString "life" eq_refl eq_refl).
  vm_compute. tauto.
Defined.

Lemma no_container_page_untouched_witness :
  document (Full.run (host := Sample.host)
              [Full.SortChange "oldest"; Full.SearchInput "a"] Data.bare)
  = document Data.bare.
Proof.
  exact (no_container_page_untouched (host := Sample.host) Data.bare
           [Full.SortChange "oldest"; Full.SearchInput "a"] eq_refl).
Defined.

Lemma search_narrows_witness :
  let shown1 := List.filter (Full.matches (host := Sample.host) "al") Data.posts in
  let shown2 := List.filter (Full.matches (host := Sample.host) "alpha") Data.posts in
  blog_posts (document (exec (Full.searchInput_oninput (host := Sample.host) "Al") Data.full))
    = Some (Full.listing (host := Sample.host) shown1) /\
  blog_posts (document (exec (Full.searchInput_oninput (host := Sample.host) "Alpha") Data.full))
    = Some (Full.listing (host := Sample.host) shown2) /\
  shown2 = List.filter (Full.matches (host := Sample.host) "alpha") shown1 /\
  (forall post, In post shown2 -> In post shown1).
Proof.
  apply (search_narrows (host := Sample.host) Data.full "Al" "Alpha" Data.posts
           EmptyString eq_refl eq_refl).
  exists EmptyString, "pha". reflexivity.
Defined.

Lemma oldest_reverses_newest_witness :
  Js.Array_sort (Full.compareFn (host := Sample.host) "oldest") [Data.alpha; Data.gamma]
  = rev (Js.Array_sort (Full.compareFn (host := Sample.host) "newest") [Data.alpha; Data.gamma]).
Proof.
  apply (oldest_reverses_newest (host := Sample.host) [Data.alpha; Data.gamma]).
  vm_compute. repeat constructor; simpl; intuition discriminate.
Defined.

Lemma handle_allocation_witness :
  heap Data.full !! fresh (dom (heap Data.full)) = None /\
  heap (exec (Full.handle (host := Sample.host) (Full.SearchInput "alpha")) Data.full)
    !! fresh (dom (heap Data.full))
  = Some (Full.step_alone (host := Sample.host) (Full.SearchInput "alpha") Data.posts).
Proof.
  exact (handle_allocation (host := Sample.host) Data.full (Full.SearchInput "alpha")
           Data.posts eq_refl).
Defined.

Lemma showPostDetail_known_post_witness :
  let outcome : FetchOutcome (list Comment.t) := Response true (JsonValue [Data.comment]) in
  let w' := exec (Simple.showPostDetail 1 outcome) Data.simple in
  requests w' = (requests Data.simple ++ [Simple.comments_url 1])%list /\
  (exists error, console w' = (console Data.simple ++ [("詳細表示エラー", error)])%list) /\
  document w' = document Data.simple /\
  heap w' = heap Data.simple.
Proof.
  exact (showPostDetail_known_post Data.simple 1 (Response true (JsonValue [Data.comment]))
           Data.posts Data.alpha eq_refl (or_introl eq_refl) eq_refl).
Defined.

Lemma simple_init_without_blog_section_witness :
  let outcome : FetchOutcome PostsDocument :=
    Response true (JsonValue {| doc_posts := Data.posts |}) in
  let w' := exec (Simple.init (host := Sample.host) outcome) Data.simple_no_section in
  outcome_of (Simple.init (host := Sample.host) outcome) Data.simple_no_section = Js.Ok tt /\
  blog_posts (document w') = Some Simple.error_message /\
  heap w' !! Simple.posts (this w')
    = Some (loaded (Simple.fallback_post (host := Sample.host)) outcome) /\
  (exists earlier,
     console w' =
     (earlier ++ [("初期化エラー:",
                   Js.TypeError "Cannot read properties of null (reading 'insertBefore')")])%list).
Proof.
  exact (simple_init_without_blog_section (host := Sample.host) Data.simple_no_section
           (Response true (JsonValue {| doc_posts := Data.posts |})) EmptyString
           eq_refl eq_refl).
Defined.

Lemma simple_init_lists_witness :
  let outcome : FetchOutcome PostsDocument := FetchRejected (Js.TypeError "Failed to fetch") in
  let stored := loaded (Simple.fallback_post (host := Sample.host)) outcome in
  let w' := exec (Simple.init (host := Sample.host) outcome) Data.simple_new in
  outcome_of (Simple.init (host := Sample.host) outcome) Data.simple_new = Js.Ok tt /\
  heap w' !! Simple.posts (this w') = Some stored /\
  blog_posts (document w') = Some (Simple.listing (host := Sample.host) stored) /\
  blog_section (document w') =
    Some ({| tagName := "div"; className := "blog-search";
             innerHTML := Simple.search_box |} :: []) /\
  body_children (document w') = body_children (document Data.simple_new).
Proof.
  exact (simple_init_lists (host := Sample.host) Data.simple_new
           (FetchRejected (Js.TypeError "Failed to fetch")) EmptyString [] eq_refl eq_refl).
Defined.

Lemma no_results_iff_nothing_matches_witness :
  blog_posts (document (exec (Simple.searchInput_oninput (host := Sample.host) "zzz") Data.simple))
    = Some Simple.no_results
  <-> List.filter (Simple.matches (host := Sample.host) "zzz") Data.posts = [].
Proof.
  exact (no_results_iff_nothing_matches (host := Sample.host) Data.simple "zzz" Data.posts
           EmptyString eq_refl eq_refl).
Defined.

Lemma validateForm_stops_at_first_blank_witness :
  let cut := {| Form.fields := firstn 2 (Form.fields Data.form);
                Form.spans := Form.spans Data.form;
                Form.statusDiv := Form.statusDiv Data.form; Form.log := Form.log Data.form;
                Form.timers := Form.timers Data.form |} in
  fst (ContactForm.validateForm Sample.trim Data.form) = false /\
  Form.spans (snd (ContactForm.validateForm Sample.trim Data.form))
  = Form.spans (snd (ContactForm.validateForm Sample.trim cut)).
Proof.
  apply (validateForm_stops_at_first_blank Sample.trim Data.form
           (firstn 1 (Form.fields Data.form)) (skipn 2 (Form.fields Data.form))
           (nth 1 (Form.fields Data.form) (nth 0 (Form.fields Data.form)
              {| Form.name := EmptyString; Form.value := EmptyString;
                 Form.defaultValue := EmptyString; Form.required := false |}))).
  - reflexivity.
  - intros g [<- | []] _. vm_compute. discriminate.
  - reflexivity.
  - reflexivity.
Defined.

(** The first version flags the blank e-mail address and stops; the
    message made of spaces is flagged by the last version only. *)
Example first_version_flags_one :
  map Form.show (Form.spans (snd (ContactForm.validateForm Sample.trim Data.form)))
  = [false; true; false].
Proof. reflexivity. Qed.

Example last_version_flags_all :
  map Form.show (Form.spans (snd (ContactFormSimple.validateForm Sample.trim Data.form)))
  = [false; true; true].
Proof. reflexivity. Qed.

Lemma simple_validateForm_flags_every_field_witness :
  let r := ContactFormSimple.validateForm Sample.trim Data.form in
  (fst r = true <->
   forall f, In f (Form.fields Data.form) -> Form.required f = true ->
             Sample.trim (Form.value f) <> EmptyString) /\
  (forall f, In f (Form.fields Data.form) -> Form.required f = true ->
     Form.find_span (Form.name f) (Form.spans (snd r))
     = option_map (Form.verdict_span Sample.trim f)
         (Form.find_span (Form.name f) (Form.spans Data.form))).
Proof.
  apply (simple_validateForm_flags_every_field Sample.trim Data.form).
  vm_compute. repeat constructor; simpl; intuition discriminate.
Defined.

Lemma simple_handleSubmit_without_status_element_witness :
  let r := ContactFormSimple.handleSubmit Sample.trim Data.form_filled in
  fst r = Js.Throw (Js.TypeError "Cannot set properties of null (setting 'textContent')") /\
  Form.fields (snd r) = Form.fields Data.form_filled /\
  Form.log (snd r)
  = (Form.log Data.form_filled
     ++ [Form.LogData "送信データ" (Form.fromEntries (Form.entries Data.form_filled))])%list /\
  Form.fields (ContactForm.handleSubmit Sample.trim Data.form_filled)
  = Form.fields (Form.reset Data.form_filled).
Proof.
  apply (simple_handleSubmit_without_status_element Sample.trim Data.form_filled).
  - reflexivity.
  - intros f [<- | [<- | [<- | []]]] _; vm_compute; discriminate.
Defined.

Lemma stale_timeout_clears_newer_message_witness :
  let p2 := ContactForm.showStatus "送信しました！" "success"
              (ContactForm.showStatus "入力内容を確認してください" "error" Data.form) in
  Form.statusDiv p2 = Some {| Form.status_text := "送信しました！";
                              Form.status_class := "submission-status " +:+ "success" |} /\
  Form.timers p2 = S (S (Form.timers Data.form)) /\
  Form.statusDiv (Form.timeout p2) = Some {| Form.status_text := EmptyString;
                                             Form.status_class := "submission-status" |} /\
  Form.timers (Form.timeout p2) = S (Form.timers Data.form).
Proof.
  exact (stale_timeout_clears_newer_message Data.form
           {| Form.status_text := EmptyString; Form.status_class := "submission-status" |}
           "入力内容を確認してください" "error" "送信しました！" "success" eq_refl).
Defined.

Example trim_spaces : Sample.trim "  a b  " = "a b".
Proof. reflexivity. Qed.

Example categories_in_order :
  Js.Set_from ["tech"; "life"; "tech"; "news"; "life"] = ["tech"; "life"; "news"].
Proof. reflexivity. Qed.

Example menu_two_clicks :
  Nat.iter 2 MobileMenu.hamburger_onclick
    {| MobileMenu.hamburger := ["hamburger"]; MobileMenu.nav := ["nav"] |}
  = {| MobileMenu.hamburger := ["hamburger"]; MobileMenu.nav := ["nav"] |}.
Proof. reflexivity. Qed.
